(** * Collector capture window: the capture buffer and drag-drop ingestion engine

    A shallow embedding of [src/App.svelte] (the capture window component)
    and the properties its specification states about it.

    Conventions of the embedding.
    - A JavaScript string is a [string]: a sequence of code units, here
      restricted to the code units 0..255 (the Latin-1 range), with
      [String.length] for [.length].
    - A JavaScript object used as a record of named fields (the settings
      object, an event payload) is a [gmap string Js.value]; reading a key
      that is absent gives [undefined].
    - The component's module-level [let] variables are the fields of the
      record [State]; every handler is a function on [State].
    - An [async] handler is split at its [await]: the part that runs when the
      event is dispatched, and the continuation that runs when the awaited
      promises have settled.  Other handlers may run in between.
    - Calls into the host ([invoke], [FileReader], [URL.createObjectURL],
      [Date.now], [Math.random]) are answered by a [Host] record.
    - Pointer coordinates, rectangles and record ids are rationals.

    Embedded are [matchesShortcut], the drag handlers of the container and of
    [document], [handleDrop], [handleDragDropEvent] with
    [handleTauriFileDrop], and the listeners of [show_capture],
    [insert_capture_text] and [settings_changed]; further [removeImage],
    [handleClose], [handleAppendToDaily], [handleSaveAsNote],
    [handleKeydown], the initial [load_settings], and, from the settings
    window, [handleShortcutKeyDown]. *)

From Stdlib Require Import ZArith QArith Qround Ascii String List Bool Lia.
From stdpp Require Import gmap strings list pretty.

Open Scope Z_scope.
Open Scope nat_scope.
Open Scope stdpp_scope.

(** ** JavaScript primitives used by the component *)

Module Js.

(** The line feed, written ["\n"] in the source. *)
Definition LF : string := String (ascii_of_nat 10) EmptyString.

(** [s.endsWith(suffix)]. *)
Definition endsWith (s suffix : string) : bool :=
  (String.length suffix <=? String.length s) &&
  String.eqb
    (String.substring (String.length s - String.length suffix)
                      (String.length suffix) s)
    suffix.

(** [s.substring(a, b)]: both indices are clamped to the length and
    swapped when [a > b]. *)
Definition substring2 (s : string) (a b : nat) : string :=
  let a' := Nat.min a (String.length s) in
  let b' := Nat.min b (String.length s) in
  String.substring (Nat.min a' b') (Nat.max a' b' - Nat.min a' b') s.

(** [s.substring(a)]. *)
Definition substring1 (s : string) (a : nat) : string :=
  substring2 s a (String.length s).

(** [s.split(sep)] for a separator of one code unit; the result is never
    empty. *)
Fixpoint split (sep : ascii) (s : string) : list string :=
  match s with
  | EmptyString => [EmptyString]
  | String c s' =>
      if Ascii.eqb c sep then EmptyString :: split sep s'
      else match split sep s' with
           | [] => [String c EmptyString]
           | h :: t => String c h :: t
           end
  end.

(** The code units below 256 that [trim] strips: TAB, LF, VT, FF, CR,
    SPACE and NBSP. *)
Definition isWhiteSpace (c : ascii) : bool :=
  let n := nat_of_ascii c in
  ((9 <=? n) && (n <=? 13)) || (n =? 32) || (n =? 160).

Fixpoint trimStart (s : string) : string :=
  match s with
  | EmptyString => EmptyString
  | String c s' => if isWhiteSpace c then trimStart s' else s
  end.

Fixpoint trimEnd (s : string) : string :=
  match s with
  | EmptyString => EmptyString
  | String c s' =>
      let r := trimEnd s' in
      if isWhiteSpace c && String.eqb r EmptyString then EmptyString
      else String c r
  end.

(** [s.trim()]. *)
Definition trim (s : string) : string := trimEnd (trimStart s).

(** Lower-casing of one code unit below 256: A-Z, and the Latin-1 capitals
    0xC0-0xDE except the multiplication sign 0xD7. *)
Definition lowerChar (c : ascii) : ascii :=
  let n := nat_of_ascii c in
  if ((65 <=? n) && (n <=? 90)) ||
     ((192 <=? n) && (n <=? 222) && negb (n =? 215))
  then ascii_of_nat (n + 32) else c.

(** [s.toLowerCase()]. *)
Fixpoint toLowerCase (s : string) : string :=
  match s with
  | EmptyString => EmptyString
  | String c s' => String (lowerChar c) (toLowerCase s')
  end.

(** [array.includes(x)] on an array of strings. *)
Definition includes (l : list string) (x : string) : bool :=
  existsb (String.eqb x) l.

(** The values an event payload or a settings field can hold. *)
Inductive value : Type :=
| VUndefined
| VNull
| VBool (b : bool)
| VNum (q : Q)
| VStr (s : string)
| VArr (items : list string).

(** Reading a property of an object. *)
Definition get (o : gmap string value) (k : string) : value :=
  default VUndefined (o !! k).

Definition isNullish (v : value) : bool :=
  match v with
  | VUndefined | VNull => true
  | _ => false
  end.

(** [a ?? b]. *)
Definition coalesce (a b : value) : value :=
  if isNullish a then b else a.

End Js.

(** ** ShortcutMatcher: [matchesShortcut] *)

(** The fields of a [KeyboardEvent] the component reads. *)
Record KeyEvent : Type := mkKeyEvent {
  metaKey : bool;
  ctrlKey : bool;
  shiftKey : bool;
  altKey : bool;
  key : string
}.

Record Modifiers : Type := mkModifiers {
  hasCmd : bool;
  hasCtrl : bool;
  hasShift : bool;
  hasAlt : bool
}.

Definition modifierNames : list string :=
  ["Cmd"; "Command"; "Ctrl"; "Control"; "Shift"; "Alt"; "Option"; "Opt"].

Definition shortcutParts (shortcutString : string) : list string :=
  map Js.trim (Js.split "+"%char shortcutString).

Definition shortcutModifiers (parts : list string) : Modifiers :=
  {| hasCmd := Js.includes parts "Cmd" || Js.includes parts "Command";
     hasCtrl := Js.includes parts "Ctrl" || Js.includes parts "Control";
     hasShift := Js.includes parts "Shift";
     hasAlt := Js.includes parts "Alt" || Js.includes parts "Option"
               || Js.includes parts "Opt" |}.

Definition shortcutKey (parts : list string) : option string :=
  List.find (fun p => negb (Js.includes modifierNames p)) parts.

Definition modifiersMatch (event : KeyEvent) (modifiers : Modifiers) : bool :=
  (Bool.eqb (metaKey event) (hasCmd modifiers)
   || Bool.eqb (ctrlKey event) (hasCmd modifiers))
  && Bool.eqb (ctrlKey event) (hasCtrl modifiers)
  && Bool.eqb (shiftKey event) (hasShift modifiers)
  && Bool.eqb (altKey event) (hasAlt modifiers).

Definition matchesShortcut (event : KeyEvent) (shortcutString : string) : bool :=
  if String.eqb shortcutString EmptyString then false
  else
    let parts := shortcutParts shortcutString in
    let modifiers := shortcutModifiers parts in
    match shortcutKey parts with
    | None => false
    | Some k =>
        if String.eqb k EmptyString then false
        else
          modifiersMatch event modifiers
          && String.eqb (Js.toLowerCase (key event)) (Js.toLowerCase k)
    end.

(** ** Data model *)

(** A browser [File]; [path] is the host's extension of it and may be
    missing. *)
Record File : Type := mkFile {
  name : string;
  path : option string;
  webkitRelativePath : option string
}.

(** A [DataTransferItem]: its [kind] and what [getAsFile()] returns. *)
Record Item : Type := mkItem {
  kind : string;
  getAsFile : option File
}.

Record DataTransfer : Type := mkDataTransfer {
  types : option (list string);
  items : option (list Item);
  files : option (list File)
}.

(** An entry of [uploadedImages]. *)
Record ImageRecord : Type := mkImageRecord {
  id : Q;
  filename : string;
  markdown : string;
  preview : string;
  file : option File
}.

(** The component's variables. *)
Record State : Type := mkState {
  content : string;
  isDragging : bool;
  isLoading : bool;
  statusMessage : string;
  statusType : string;
  uploadedImages : list ImageRecord;
  dragCounter : Z;
  appSettings : gmap string Js.value
}.

Definition defaultAppSettings : gmap string Js.value :=
  list_to_map
    [("background_color", Js.VStr "#1e1e2e");
     ("font_family",
      Js.VStr "-apple-system, BlinkMacSystemFont, SF Pro Display");
     ("font_size", Js.VNum 15);
     ("border_radius", Js.VNum 12);
     ("window_transparency", Js.VNum 55);
     ("window_blur", Js.VNum 80);
     ("window_saturation", Js.VNum 200);
     ("window_brightness", Js.VNum 0);
     ("text_color", Js.VStr "#ffffff");
     ("save_to_daily_shortcut", Js.VStr "Cmd+Enter");
     ("save_as_note_shortcut", Js.VStr "Cmd+Shift+Enter")].

(** The state the component is constructed with. *)
Definition initialState : State :=
  {| content := "";
     isDragging := false;
     isLoading := false;
     statusMessage := "";
     statusType := "";
     uploadedImages := [];
     dragCounter := 0%Z;
     appSettings := defaultAppSettings |}.

Definition set_content (v : string) (s : State) : State :=
  mkState v (isDragging s) (isLoading s) (statusMessage s) (statusType s)
          (uploadedImages s) (dragCounter s) (appSettings s).
Definition set_isDragging (v : bool) (s : State) : State :=
  mkState (content s) v (isLoading s) (statusMessage s) (statusType s)
          (uploadedImages s) (dragCounter s) (appSettings s).
Definition set_isLoading (v : bool) (s : State) : State :=
  mkState (content s) (isDragging s) v (statusMessage s) (statusType s)
          (uploadedImages s) (dragCounter s) (appSettings s).
Definition set_statusMessage (v : string) (s : State) : State :=
  mkState (content s) (isDragging s) (isLoading s) v (statusType s)
          (uploadedImages s) (dragCounter s) (appSettings s).
Definition set_statusType (v : string) (s : State) : State :=
  mkState (content s) (isDragging s) (isLoading s) (statusMessage s) v
          (uploadedImages s) (dragCounter s) (appSettings s).
Definition set_uploadedImages (v : list ImageRecord) (s : State) : State :=
  mkState (content s) (isDragging s) (isLoading s) (statusMessage s)
          (statusType s) v (dragCounter s) (appSettings s).
Definition set_dragCounter (v : Z) (s : State) : State :=
  mkState (content s) (isDragging s) (isLoading s) (statusMessage s)
          (statusType s) (uploadedImages s) v (appSettings s).
Definition set_appSettings (v : gmap string Js.value) (s : State) : State :=
  mkState (content s) (isDragging s) (isLoading s) (statusMessage s)
          (statusType s) (uploadedImages s) (dragCounter s) v.

(** What the template renders of the capture buffer: the textarea's value,
    the gallery, the drop overlay, the loading indicator and the status
    toast.  The toast is rendered only while [statusMessage] is not empty,
    and reads [statusType] only then. *)
Record BufferView : Type := mkBufferView {
  viewText : string;
  viewGallery : list ImageRecord;
  viewDropOverlay : bool;
  viewLoading : bool;
  viewToast : option (string * bool)
}.

Definition render (s : State) : BufferView :=
  {| viewText := content s;
     viewGallery := uploadedImages s;
     viewDropOverlay := isDragging s;
     viewLoading := isLoading s;
     viewToast :=
       if String.eqb (statusMessage s) "" then None
       else Some (statusMessage s, String.eqb (statusType s) "error") |}.

(** [showStatus(message, type)]; only errors are shown.  The timer it starts
    is the event [StatusTimeout] below. *)
Definition showStatus (message type : string) (s : State) : State :=
  if negb (String.eqb type "error") then s
  else set_statusType type (set_statusMessage message s).

(** ** The host *)

(** How a promise settles. *)
Inductive outcome (A : Type) : Type :=
| Resolved (a : A)
| Rejected (err : string).
Arguments Resolved {A} a.
Arguments Rejected {A} err.

(** What [save_image] and [save_image_from_bytes] answer: a bare markdown
    string, or an object whose fields may be null. *)
Inductive SaveResult : Type :=
| SavedString (s : string)
| SavedObject (markdown saved_path filename : option string).

(** The host calls of the two ingestion paths.  The first argument of the
    calls made while an entry is processed is the entry's index in its
    batch.  [isTauri] is the component's variable of that name, assigned once
    when the component is mounted; [invokeDefined] is
    [typeof invoke !== "undefined"]. *)
Record Host : Type := mkHost {
  isTauri : bool;
  invokeDefined : bool;
  save_image : nat -> string -> outcome SaveResult;
  save_image_from_bytes : nat -> string -> string -> outcome SaveResult;
  arrayBuffer : nat -> File -> outcome unit;
  readAsDataURL : nat -> File -> outcome (option string);
  createObjectURL : nat -> File -> string;
  convertFileSrc : string -> string;
  decodeURIComponent : string -> outcome string;
  date_now : nat -> Z;
  math_random : nat -> Q
}.

Record NormalizedResult : Type := mkNormalizedResult {
  nr_markdown : string;
  nr_saved_path : option string;
  nr_filename : option string
}.

Definition normalizeImageResult (result : SaveResult) : NormalizedResult :=
  match result with
  | SavedString s => mkNormalizedResult s None None
  | SavedObject m p f => mkNormalizedResult (default "" m) p f
  end.

(** [a || b] on strings that may be undefined: the first one that is neither
    undefined nor empty. *)
Definition truthy (a : option string) : option string :=
  match a with
  | Some s => if String.eqb s "" then None else Some s
  | None => None
  end.

Definition orElse (a b : option string) : option string :=
  match truthy a with
  | Some s => Some s
  | None => b
  end.

Definition normalizeFilePath (h : Host) (p : option string) : outcome string :=
  match truthy p with
  | None => Resolved ""
  | Some p =>
      if String.prefix "file://" p
      then decodeURIComponent h (Js.substring1 p 7)
      else Resolved p
  end.

(** ** ImageIngestionPipeline *)

Definition imageExtensions : list string :=
  ["png"; "jpg"; "jpeg"; "webp"; "gif"].

(** [name.split(".").pop()?.toLowerCase()]. *)
Definition extension (name : string) : option string :=
  Js.toLowerCase <$> last (Js.split "."%char name).

(** The type check both drop handlers apply to a file name or path. *)
Definition supported (name : string) : bool :=
  match extension name with
  | Some ext => Js.includes imageExtensions ext
  | None => false
  end.

(** How the processing of one entry of a batch ends.  Every case but
    [EntryOk] is the [null] of the source; they differ in the status message
    shown. *)
Inductive EntryResult : Type :=
| EntryOk (img : ImageRecord)
| EntryUnsupported
| EntryNoRuntime
| EntryError (msg : string).

Definition toNullable (r : EntryResult) : option ImageRecord :=
  match r with
  | EntryOk img => Some img
  | _ => None
  end.

Definition newId (h : Host) (index : nat) : Q :=
  (inject_Z (date_now h index) + math_random h index
   + inject_Z (Z.of_nat index))%Q.

(** The path of a dropped browser file, when it has one: the file's own, or
    the one of the file behind the item at the same index. *)
Definition filePathOf (its : list Item) (index : nat) (f : File)
  : option string :=
  match truthy (orElse (orElse (path f) (webkitRelativePath f)) None) with
  | Some p => Some p
  | None =>
      match its !! index with
      | Some item =>
          if String.eqb (kind item) "file" then
            match getAsFile item with
            | Some fileFromItem =>
                truthy (orElse (path fileFromItem)
                               (webkitRelativePath fileFromItem))
            | None => None
            end
          else None
      | None => None
      end
  end.

(** The base64 text taken from what the [FileReader] read. *)
Definition base64String (result : option string) : string :=
  match result with
  | Some r =>
      match truthy (Js.split ","%char r !! 1) with
      | Some b => b
      | None => r
      end
  | None => ""
  end.

(** The callback [handleDrop] maps over the dropped files. *)
Definition processFile (h : Host) (its : list Item) (index : nat) (f : File)
  : EntryResult :=
  if negb (supported (name f)) then EntryUnsupported
  else
    let finish (markdownLink : string) :=
      EntryOk {| id := newId h index;
                 filename := name f;
                 markdown := markdownLink;
                 preview := createObjectURL h index f;
                 file := Some f |} in
    match filePathOf its index f with
    | Some filePath =>
        match save_image h index filePath with
        | Resolved result => finish (nr_markdown (normalizeImageResult result))
        | Rejected e => EntryError e
        end
    | None =>
        if negb (isTauri h) then EntryNoRuntime
        else
          match arrayBuffer h index f with
          | Rejected e => EntryError e
          | Resolved _ =>
              match readAsDataURL h index f with
              | Rejected e =>
                  EntryError ("Error: Failed to encode file: " +:+ e)
              | Resolved r =>
                  if negb (invokeDefined h)
                  then EntryError
                         "Error: invoke is undefined - not running in Tauri"
                  else
                    match save_image_from_bytes h index (base64String r)
                                                (name f) with
                    | Resolved result =>
                        finish (nr_markdown (normalizeImageResult result))
                    | Rejected e => EntryError e
                    end
              end
          end
    end.

(** The callback [handleTauriFileDrop] maps over the supported paths. *)
Definition processPath (h : Host) (index : nat) (filePath : string)
  : EntryResult :=
  match save_image h index filePath with
  | Rejected e => EntryError e
  | Resolved result =>
      let normalizedResult := normalizeImageResult result in
      match normalizeFilePath h
              (orElse (nr_saved_path normalizedResult) (Some filePath)) with
      | Rejected e => EntryError e
      | Resolved normalizedPath =>
          EntryOk
            {| id := newId h index;
               filename :=
                 default ("image" +:+ pretty index)
                   (truthy (orElse (nr_filename normalizedResult)
                                   (last (Js.split "/"%char normalizedPath))));
               markdown := nr_markdown normalizedResult;
               preview := convertFileSrc h normalizedPath;
               file := None |}
      end
  end.

(** [results.filter((img) => img !== null)]. *)
Definition validImages (results : list EntryResult) : list ImageRecord :=
  omap toNullable results.

(** ** CaptureBufferManager: inserting the references of a batch *)

(** One round of the [forEach] of [handleDrop]: the pair is [content] and
    [currentPosition]. *)
Definition insertImage (st : string * nat) (img : ImageRecord) : string * nat :=
  let '(content, currentPosition) := st in
  let imageMarkdown := markdown img +:+ Js.LF in
  if String.length content <=? currentPosition then
    let '(content, currentPosition) :=
      if (0 <? String.length content) && negb (Js.endsWith content Js.LF)
      then (content +:+ Js.LF, String.length (content +:+ Js.LF))
      else (content, currentPosition) in
    (content +:+ imageMarkdown, currentPosition + String.length imageMarkdown)
  else
    let before := Js.substring2 content 0 currentPosition in
    let after := Js.substring1 content currentPosition in
    let isAtLineStart :=
      Js.endsWith before Js.LF || (String.length before =? 0) in
    if negb isAtLineStart && negb (Js.endsWith before (Js.LF +:+ Js.LF)) then
      (before +:+ Js.LF +:+ imageMarkdown +:+ after,
       currentPosition + (1 + String.length imageMarkdown))
    else
      (before +:+ imageMarkdown +:+ after,
       currentPosition + String.length imageMarkdown).

(** The whole [forEach], from [insertPosition]. *)
Definition insertImages (content : string) (insertPosition : nat)
    (imgs : list ImageRecord) : string * nat :=
  fold_left insertImage imgs (content, insertPosition).

(** ** InsertionPositionResolver *)

(** Pointer coordinates and rectangles are rationals. *)
Record Rect : Type := mkRect {
  left : Q;
  right : Q;
  top : Q;
  bottom : Q
}.

(** What [handleDrop] reads of the textarea behind [textareaRef]:
    [lineHeightParsed] is [parseInt(getComputedStyle(..).lineHeight)], with
    [None] for [NaN]. *)
Record Textarea : Type := mkTextarea {
  boundingClientRect : Rect;
  selectionStart : option nat;
  lineHeightParsed : option Z;
  scrollTop : Q
}.

Record Dom : Type := mkDom {
  textareaRef : option Textarea
}.

(** A [drop] event: [targetInTextarea] is
    [e.target === textareaRef || e.target.closest("textarea") === textareaRef]. *)
Record DropEvt : Type := mkDropEvt {
  dataTransfer : option DataTransfer;
  clientX : Q;
  clientY : Q;
  targetInTextarea : bool
}.

Definition Qltb (a b : Q) : bool := negb (Qle_bool b a).

(** The position the references of a browser drop are inserted at. *)
Definition resolveInsertPosition (dom : Dom) (e : DropEvt) (content : string)
  : nat :=
  match textareaRef dom with
  | Some ta =>
      let textareaRect := boundingClientRect ta in
      let dropX := clientX e in
      let dropY := clientY e in
      let isOverTextarea :=
        Qle_bool (left textareaRect) dropX
        && Qle_bool dropX (right textareaRect)
        && Qle_bool (top textareaRect) dropY
        && Qle_bool dropY (bottom textareaRect) in
      if isOverTextarea || targetInTextarea e then
        match selectionStart ta with
        | Some p => p
        | None =>
            let lineHeight :=
              match lineHeightParsed ta with
              | None | Some 0%Z => 20%Z
              | Some n => n
              end in
            let relativeY := (dropY - top textareaRect + scrollTop ta)%Q in
            let estimatedLine :=
              Z.max 0 (Qfloor (relativeY / inject_Z lineHeight)) in
            let lines := Js.split (ascii_of_nat 10) content in
            let pos :=
              fold_left (fun pos line => pos + (String.length line + 1))
                (take (Nat.min (Z.to_nat estimatedLine) (length lines)) lines)
                0 in
            Nat.min pos (String.length content)
        end
      else String.length content
  | None => String.length content
  end.

(** ** DragDropTracker: the drag handlers *)

(** [isFileDrag(e)], from [e.dataTransfer]. *)
Definition isFileDrag (dt : option DataTransfer) : bool :=
  match dt with
  | None => false
  | Some d =>
      match types d with
      | Some ts =>
          Js.includes ts "Files"
          || match items d with
             | Some its => 0 <? length its
             | None => false
             end
      | None =>
          match items d with
          | Some its => 0 <? length its
          | None => false
          end
      end
  end.

Definition handleDragEnter (dt : option DataTransfer) (s : State) : State :=
  if isFileDrag dt then
    let s := set_dragCounter (dragCounter s + 1)%Z s in
    if (dragCounter s =? 1)%Z then set_isDragging true s else s
  else s.

(** A [dragleave] event on the container: the container's rectangle and the
    pointer. *)
Record LeaveEvt : Type := mkLeaveEvt {
  leaveRect : Rect;
  leaveX : Q;
  leaveY : Q
}.

Definition handleDragLeave (e : LeaveEvt) (s : State) : State :=
  let rect := leaveRect e in
  let x := leaveX e in
  let y := leaveY e in
  let isLeaving :=
    Qltb x (left rect) || Qltb (right rect) x
    || Qltb y (top rect) || Qltb (bottom rect) y in
  if isLeaving then
    let s := set_dragCounter (dragCounter s - 1)%Z s in
    if (dragCounter s <=? 0)%Z
    then set_isDragging false (set_dragCounter 0%Z s)
    else s
  else s.

Definition handleDragOver (dt : option DataTransfer) (s : State) : State :=
  if isFileDrag dt then
    if negb (isDragging s) then set_isDragging true s else s
  else s.

(** The listeners on [document], registered for the capture phase. *)
Definition globalDragEnter (dt : option DataTransfer) (s : State) : State :=
  if negb (isFileDrag dt) then s
  else set_isDragging true (set_dragCounter (Z.max (dragCounter s) 1) s).

Definition globalDragLeave (targetIsDocumentElement : bool) (s : State)
  : State :=
  if targetIsDocumentElement
  then set_isDragging false (set_dragCounter 0%Z s)
  else s.

(** ** Browser drops: [handleDrop] *)

Definition dropFiles (e : DropEvt) : list File :=
  match dataTransfer e with
  | Some dt => default [] (files dt)
  | None => []
  end.

Definition dropItems (e : DropEvt) : list Item :=
  match dataTransfer e with
  | Some dt => default [] (items dt)
  | None => []
  end.

(** What the promises of a browser drop settle to, in batch order. *)
Definition dropResults (h : Host) (e : DropEvt) : list EntryResult :=
  imap (processFile h (dropItems e)) (dropFiles e).

(** ["Nicht unterst\u00FCtzt: "], the u-umlaut being the code unit 252. *)
Definition unsupportedPrefix : string :=
  "Nicht unterst" +:+ String (ascii_of_nat 252) "tzt: ".

(** The status an entry shows before its first [await]. *)
Definition showEntryStatus (s : State) (fr : File * EntryResult) : State :=
  match snd fr with
  | EntryUnsupported =>
      showStatus (unsupportedPrefix +:+ name (fst fr)) "error" s
  | EntryNoRuntime => showStatus "Please use in Tauri app" "error" s
  | _ => s
  end.

(** [handleDrop] up to [await Promise.all(promises)]. *)
Definition handleDrop_start (h : Host) (e : DropEvt) (s : State) : State :=
  let s := set_dragCounter 0%Z (set_isDragging false s) in
  match dataTransfer e with
  | None => showStatus "Error: dataTransfer not available" "error" s
  | Some _ =>
      if length (dropFiles e) =? 0 then showStatus "No files found" "error" s
      else fold_left showEntryStatus (zip (dropFiles e) (dropResults h e)) s
  end.

(** The [catch] of an entry whose host call was rejected. *)
Definition entryRejected (msg : string) (s : State) : State :=
  showStatus ("Error: " +:+ msg) "error" s.

(** The message of a completed drop.  Its check mark (U+2713) is not among
    the code units modelled and is left out; [showStatus] drops the message,
    which is not an error. *)
Definition addedMessage (n : nat) : string :=
  pretty n +:+ " image" +:+ (if 1 <? n then "s" else "") +:+ " added".

(** [handleDrop] from [await Promise.all(promises)] on; [results] is what the
    promises settled to.  (Moving the caret behind the inserted text happens
    in the textarea and is not part of the state.) *)
Definition handleDrop_resume (dom : Dom) (e : DropEvt)
    (results : list EntryResult) (s : State) : State :=
  let valid := validImages results in
  if 0 <? length valid then
    let insertPosition := resolveInsertPosition dom e (content s) in
    let s := set_content
               (fst (insertImages (content s) insertPosition valid)) s in
    let s := set_uploadedImages (uploadedImages s ++ valid) s in
    showStatus (addedMessage (length valid)) "success" s
  else s.

(** [globalDrop]: [inContainer] is whether
    [e.target?.closest?.(".capture-container")] finds the container. *)
Definition globalDrop_start (h : Host) (inContainer : bool) (e : DropEvt)
    (s : State) : State :=
  if inContainer then handleDrop_start h e s else s.

(** ** Host-native drops: [handleDragDropEvent] and [handleTauriFileDrop] *)

Definition tauriImagePaths (paths : list string) : list string :=
  List.filter supported paths.

(** What the promises of a host-native drop settle to. *)
Definition tauriResults (h : Host) (paths : list string) : list EntryResult :=
  imap (processPath h) (tauriImagePaths paths).

(** [handleTauriFileDrop] up to [await Promise.all(promises)]. *)
Definition handleTauriFileDrop_start (paths : list string) (s : State)
  : State :=
  let s := set_dragCounter 0%Z (set_isDragging false s) in
  if length paths =? 0 then showStatus "No files found" "error" s
  else if length (tauriImagePaths paths) =? 0
  then showStatus "No supported image files found" "error" s
  else s.

(** [handleTauriFileDrop] from [await Promise.all(promises)] on.  [dom] is
    the textarea as it is at that moment. *)
Definition handleTauriFileDrop_resume (dom : Dom)
    (results : list EntryResult) (s : State) : State :=
  let valid := validImages results in
  if 0 <? length valid then
    let s := set_uploadedImages (uploadedImages s ++ valid) s in
    let s :=
      if (0 <? String.length (content s))
         && negb (Js.endsWith (content s) Js.LF)
      then set_content (content s +:+ Js.LF) s else s in
    let s :=
      fold_left (fun s img => set_content (content s +:+ markdown img +:+ Js.LF) s)
                valid s in
    showStatus (addedMessage (length valid)) "success" s
  else s.

(** The payload of a host drag-drop event; [paths] is [None] when
    [payload.paths] is not an array, [position] is the pointer position the
    host reports with it. *)
Record NativePayload : Type := mkNativePayload {
  ptype : string;
  paths : option (list string);
  position : option (Q * Q)
}.

Definition handleDragDropEvent (payload : option NativePayload) (s : State)
  : State :=
  match payload with
  | None => s
  | Some payload =>
      if String.eqb (ptype payload) "enter" || String.eqb (ptype payload) "over"
      then set_isDragging true s
      else if String.eqb (ptype payload) "leave"
      then set_dragCounter 0%Z (set_isDragging false s)
      else if String.eqb (ptype payload) "drop" then
        let s := set_dragCounter 0%Z (set_isDragging false s) in
        match paths payload with
        | Some ps => handleTauriFileDrop_start ps s
        | None => s
        end
      else s
  end.

(** ** The listeners of the host's events *)

(** The preview URLs the [show_capture] listener revokes. *)
Definition revokedPreviews (s : State) : list string :=
  List.filter (fun p => negb (String.eqb p "") && String.prefix "blob:" p)
              (map preview (uploadedImages s)).

(** The [show_capture] listener: the reset of the buffer. *)
Definition show_capture (s : State) : State :=
  let s := set_content "" s in
  let s := set_uploadedImages [] s in
  let s := set_statusMessage "" s in
  let s := set_isDragging false s in
  let s := set_dragCounter 0%Z s in
  set_isLoading false s.

(** The [insert_capture_text] listener. *)
Definition insert_capture_text (payload : Js.value) (s : State) : State :=
  let text := match payload with Js.VStr t => t | _ => "" end in
  if String.eqb (Js.trim text) "" then s else set_content text s.

Definition settingsFields : list string :=
  ["background_color"; "font_family"; "font_size"; "border_radius";
   "window_transparency"; "window_blur"; "window_saturation";
   "window_brightness"; "text_color"; "save_to_daily_shortcut";
   "save_as_note_shortcut"].

(** The object literal of the [settings_changed] listener: the spread of
    [appSettings], then the eleven fields. *)
Definition mergeSettings (appSettings newSettings : gmap string Js.value)
  : gmap string Js.value :=
  foldr (fun k acc =>
           <[k := Js.coalesce (Js.get newSettings k) (Js.get appSettings k)]> acc)
        appSettings settingsFields.

(** The [settings_changed] listener; a payload that is [null] or [undefined]
    ([None]) makes the first property read throw, and nothing is assigned. *)
Definition settings_changed (payload : option (gmap string Js.value))
    (s : State) : State :=
  match payload with
  | Some newSettings =>
      set_appSettings (mergeSettings (appSettings s) newSettings) s
  | None => s
  end.

(** ** The event loop *)

(** One handler run of the component.  The two drop handlers run in two
    steps: the event itself and, later, the settling of its promises, with
    the textarea as it is by then. *)
Inductive Event : Type :=
| EvDragEnter (dt : option DataTransfer)
| EvDragLeave (e : LeaveEvt)
| EvDragOver (dt : option DataTransfer)
| EvDrop (e : DropEvt)
| EvGlobalDragEnter (dt : option DataTransfer)
| EvGlobalDragOver (dt : option DataTransfer)
| EvGlobalDragLeave (targetIsDocumentElement : bool)
| EvGlobalDrop (inContainer : bool) (e : DropEvt)
| EvNative (payload : option NativePayload)
| EvDropSettled (dom : Dom) (e : DropEvt)
| EvNativeDropSettled (dom : Dom) (ps : list string)
| EvEntryRejected (msg : string)
| EvStatusTimeout
| EvShowCapture
| EvInsertCaptureText (payload : Js.value)
| EvSettingsChanged (payload : option (gmap string Js.value)).

Definition step (h : Host) (s : State) (ev : Event) : State :=
  match ev with
  | EvDragEnter dt => handleDragEnter dt s
  | EvDragLeave e => handleDragLeave e s
  | EvDragOver dt => handleDragOver dt s
  | EvDrop e => handleDrop_start h e s
  | EvGlobalDragEnter dt => globalDragEnter dt s
  | EvGlobalDragOver _ => s
  | EvGlobalDragLeave b => globalDragLeave b s
  | EvGlobalDrop b e => globalDrop_start h b e s
  | EvNative payload => handleDragDropEvent payload s
  | EvDropSettled dom e => handleDrop_resume dom e (dropResults h e) s
  | EvNativeDropSettled dom ps =>
      handleTauriFileDrop_resume dom (tauriResults h ps) s
  | EvEntryRejected msg => entryRejected msg s
  | EvStatusTimeout => set_statusMessage "" s
  | EvShowCapture => show_capture s
  | EvInsertCaptureText payload => insert_capture_text payload s
  | EvSettingsChanged payload => settings_changed payload s
  end.

(** Running a sequence of events. *)
Definition run (h : Host) (s : State) (evs : list Event) : State :=
  fold_left (step h) evs s.

(** The references of a batch, each followed by a line feed, in batch
    order. *)
Definition refLines (imgs : list ImageRecord) : string :=
  foldr (fun img acc => markdown img +:+ Js.LF +:+ acc) "" imgs.

(** A buffer made to end with a line feed unless it is empty. *)
Definition ensureLineBreak (content : string) : string :=
  if (0 <? String.length content) && negb (Js.endsWith content Js.LF)
  then content +:+ Js.LF else content.

(** The line feed put in front of a reference inserted after [before]:
    none when [before] is empty or ends with a line feed. *)
Definition lineBreakAfter (before : string) : string :=
  if Js.endsWith before Js.LF || (String.length before =? 0)
  then "" else Js.LF.

(** Where a reference can be put without a line break of its own: at the
    start of the buffer or right after a line feed. *)
Definition lineStart (content : string) : Prop :=
  content = "" \/ Js.endsWith content Js.LF = true.

(** A record whose markdown reference is [md]. *)
Definition recordOf (fname md : string) : ImageRecord :=
  {| id := 0; filename := fname; markdown := md; preview := ""; file := None |}.

(** A string without a code unit that [trim] keeps. *)
Fixpoint allWhiteSpace (s : string) : bool :=
  match s with
  | EmptyString => true
  | String c s' => Js.isWhiteSpace c && allWhiteSpace s'
  end.

(** The events that are a drop delivered to the tracker: a browser drop
    handled by [handleDrop], directly or through the listener on [document],
    and a host event tagged ["drop"]. *)
Definition isDropEvent (ev : Event) : bool :=
  match ev with
  | EvDrop _ => true
  | EvGlobalDrop inContainer _ => inContainer
  | EvNative (Some payload) => String.eqb (ptype payload) "drop"
  | _ => false
  end.

(** The drag state: the nesting counter and the phase flag. *)
Definition dragState (s : State) : Z * bool := (dragCounter s, isDragging s).

(** ** What it is for an entry to resolve, and to fail *)













(** The requirement that results arriving after a reset are discarded: a
    browser drop is dispatched, [show_capture] resets the buffer while the
    drop's promises are pending, and their settling leaves the text and the
    record list as the reset made them. *)
Definition staleResultsDiscarded (h : Host) (s : State) (e : DropEvt)
    (dom : Dom) : Prop :=
  let reset := run h s [EvDrop e; EvShowCapture] in
  let settled := run h s [EvDrop e; EvShowCapture; EvDropSettled dom e] in
  content settled = content reset
  /\ uploadedImages settled = uploadedImages reset.

(** ** A sample host and sample events *)

Definition baseName (p : string) : string :=
  default "" (last (Js.split "/"%char p)).

(** A host that saves every image and names it after the file. *)
Definition sampleHost : Host :=
  {| isTauri := true;
     invokeDefined := true;
     save_image := fun _ p =>
       Resolved (SavedObject (Some ("![[" +:+ baseName p +:+ "]]"))
                             (Some p) (Some (baseName p)));
     save_image_from_bytes := fun _ _ n =>
       Resolved (SavedObject (Some ("![[" +:+ n +:+ "]]")) None (Some n));
     arrayBuffer := fun _ _ => Resolved tt;
     readAsDataURL := fun _ _ => Resolved (Some "data:image/png;base64,AAAA");
     createObjectURL := fun i _ => "blob:preview-" +:+ pretty i;
     convertFileSrc := fun p => "asset://localhost" +:+ p;
     decodeURIComponent := fun p => Resolved p;
     date_now := fun _ => 0%Z;
     math_random := fun _ => 0%Q |}.

Definition sampleFile : File :=
  mkFile "a.png" (Some "/tmp/a.png") (Some "").

Definition sampleTransfer : DataTransfer :=
  mkDataTransfer (Some ["Files"]) (Some [mkItem "file" (Some sampleFile)])
                 (Some [sampleFile]).

Definition sampleDrop : DropEvt :=
  mkDropEvt (Some sampleTransfer) 10 10 true.

Definition sampleDom : Dom :=
  mkDom (Some (mkTextarea (mkRect 0 100 0 100) (Some 0) (Some 20%Z) 0)).

(** A pointer outside the container's rectangle. *)
Definition sampleLeave : LeaveEvt :=
  mkLeaveEvt (mkRect 0 100 0 100) 200 50.

Definition sampleState : State := set_content "X" initialState.

(** ** The rest of the capture window *)

(** [removeImage(id)]: the preview it revokes, and the gallery it leaves.
    Ids are compared as numbers. *)
Definition removedPreview (i : Q) (s : State) : list string :=
  match List.find (fun img => Qeq_bool (id img) i) (uploadedImages s) with
  | Some image =>
      if negb (String.eqb (preview image) "")
         && String.prefix "blob:" (preview image)
      then [preview image] else []
  | None => []
  end.

Definition removeImage (i : Q) (s : State) : State :=
  set_uploadedImages
    (List.filter (fun img => negb (Qeq_bool (id img) i)) (uploadedImages s)) s.

(** The blob previews of the gallery, the ones that must be revoked. *)
Definition blobPreviews (imgs : list ImageRecord) : list string :=
  List.filter (fun p => negb (String.eqb p "") && String.prefix "blob:" p)
              (map preview imgs).

(** The assignments shared by [handleClose] and the success paths of
    [handleAppendToDaily] and [handleSaveAsNote]; the status message is left
    alone. *)
Definition clearBuffer (s : State) : State :=
  let s := set_content "" s in
  let s := set_uploadedImages [] s in
  let s := set_isDragging false s in
  let s := set_dragCounter 0%Z s in
  set_isLoading false s.

(** [handleClose], up to the call of [hide_capture]. *)
Definition handleClose (s : State) : State := clearBuffer s.

(** The cross (U+2717) and the space in front of a failure message; the
    cross is not among the code units modelled and is carried as its UTF-8
    bytes.  The message is only displayed. *)
Definition failurePrefix : string := "✗ ".

(** [handleAppendToDaily] up to its [await]: the state, and the text passed
    to [append_to_daily_note] when the command is invoked. *)
Definition handleAppendToDaily_start (s : State) : State * option string :=
  if String.eqb (Js.trim (content s)) "" || isLoading s then
    (if String.eqb (Js.trim (content s)) ""
     then showStatus "Nothing to append" "error" s else s,
     None)
  else (set_isLoading true s, Some (Js.trim (content s))).

(** [handleAppendToDaily] from its [await] on, up to the call of
    [hide_capture].  The message of the success path loses its check mark as
    in [addedMessage]; [showStatus] drops it. *)
Definition handleAppendToDaily_resume (r : outcome unit) (s : State) : State :=
  match r with
  | Resolved _ => clearBuffer (showStatus "Saved" "success" s)
  | Rejected e =>
      set_isLoading false (showStatus (failurePrefix +:+ e) "error" s)
  end.

(** [handleSaveAsNote], likewise; the command is [save_as_note]. *)
Definition handleSaveAsNote_start (s : State) : State * option string :=
  if String.eqb (Js.trim (content s)) "" || isLoading s then (s, None)
  else (set_isLoading true s, Some (Js.trim (content s))).

Definition handleSaveAsNote_resume (r : outcome string) (s : State) : State :=
  match r with
  | Resolved result => clearBuffer (showStatus result "success" s)
  | Rejected e =>
      set_isLoading false (showStatus (failurePrefix +:+ e) "error" s)
  end.

(** [matchesShortcut] on a settings field: a falsy value does not match, a
    string is matched, and any other value has no [split] to call ([None]:
    a [TypeError] is thrown). *)
Definition matchesShortcutValue (event : KeyEvent) (v : Js.value)
  : option bool :=
  match v with
  | Js.VUndefined | Js.VNull => Some false
  | Js.VBool b => if b then None else Some false
  | Js.VNum q => if Qeq_bool q 0 then Some false else None
  | Js.VStr shortcutString => Some (matchesShortcut event shortcutString)
  | Js.VArr _ => None
  end.

(** What a key press is dispatched to. *)
Inductive KeyAction : Type :=
| KeyOpenSettings
| KeyAppendToDaily
| KeySaveAsNote
| KeyClose
| KeyNothing.

(** [handleKeydown]: the handler it calls; [None] when [matchesShortcut]
    throws. *)
Definition handleKeydown (e : KeyEvent) (s : State) : option KeyAction :=
  if metaKey e && String.eqb (key e) "," then Some KeyOpenSettings
  else
    match matchesShortcutValue e
            (Js.get (appSettings s) "save_to_daily_shortcut") with
    | None => None
    | Some true => Some KeyAppendToDaily
    | Some false =>
        match matchesShortcutValue e
                (Js.get (appSettings s) "save_as_note_shortcut") with
        | None => None
        | Some true => Some KeySaveAsNote
        | Some false =>
            if String.eqb (key e) "Escape" then Some KeyClose
            else Some KeyNothing
        end
    end.

(** The object assigned to [appSettings] when [load_settings] has answered
    with [settings]. *)
Definition loadedSettings (settings : gmap string Js.value)
  : gmap string Js.value :=
  list_to_map
    [("background_color", Js.get settings "background_color");
     ("font_family", Js.get settings "font_family");
     ("font_size", Js.get settings "font_size");
     ("border_radius", Js.get settings "border_radius");
     ("window_transparency",
      Js.coalesce (Js.get settings "window_transparency") (Js.VNum 55));
     ("window_blur", Js.coalesce (Js.get settings "window_blur") (Js.VNum 80));
     ("window_saturation",
      Js.coalesce (Js.get settings "window_saturation") (Js.VNum 200));
     ("window_brightness",
      Js.coalesce (Js.get settings "window_brightness") (Js.VNum 0));
     ("text_color",
      Js.coalesce (Js.get settings "text_color") (Js.VStr "#ffffff"));
     ("save_to_daily_shortcut",
      Js.coalesce (Js.get settings "save_to_daily_shortcut")
                  (Js.VStr "Cmd+Enter"));
     ("save_as_note_shortcut",
      Js.coalesce (Js.get settings "save_as_note_shortcut")
                  (Js.VStr "Cmd+Shift+Enter"))].

(** The end of [onMount]: [load_settings] answered, or failed. *)
Definition settings_loaded (r : outcome (gmap string Js.value)) (s : State)
  : State :=
  match r with
  | Resolved settings => set_appSettings (loadedSettings settings) s
  | Rejected _ => s
  end.

(** The fields [loadedSettings] gives a fallback. *)
Definition fallbackFields : list string :=
  ["window_transparency"; "window_blur"; "window_saturation";
   "window_brightness"; "text_color"; "save_to_daily_shortcut";
   "save_as_note_shortcut"].

(** Everything the capture window reacts to: the events above, a click on a
    thumbnail's remove button, a key press in the textarea, and the settling
    of the two save commands. *)
Inductive Input : Type :=
| InEvent (ev : Event)
| InRemoveImage (i : Q)
| InKeydown (e : KeyEvent)
| InAppendSettled (r : outcome unit)
| InSaveAsNoteSettled (r : outcome string)
| InSettingsLoaded (r : outcome (gmap string Js.value)).

Definition handle (h : Host) (s : State) (input : Input) : State :=
  match input with
  | InEvent ev => step h s ev
  | InRemoveImage i => removeImage i s
  | InKeydown e =>
      match handleKeydown e s with
      | Some KeyAppendToDaily => fst (handleAppendToDaily_start s)
      | Some KeySaveAsNote => fst (handleSaveAsNote_start s)
      | Some KeyClose => handleClose s
      | Some KeyOpenSettings | Some KeyNothing | None => s
      end
  | InAppendSettled r => handleAppendToDaily_resume r s
  | InSaveAsNoteSettled r => handleSaveAsNote_resume r s
  | InSettingsLoaded r => settings_loaded r s
  end.

Definition handleAll (h : Host) (s : State) (inputs : list Input) : State :=
  fold_left (handle h) inputs s.

(** The inputs that can clear [isLoading]: the settling of a save command,
    the reset of [show_capture], and a press of Escape, which [handleKeydown]
    may dispatch to [handleClose]. *)
Definition clearsLoading (input : Input) : bool :=
  match input with
  | InEvent EvShowCapture => true
  | InKeydown e => String.eqb (key e) "Escape"
  | InAppendSettled _ | InSaveAsNoteSettled _ => true
  | _ => false
  end.

(** The drop overlay is shown whenever the nesting counter is positive, and
    the counter is not negative. *)
Definition overlayShown (s : State) : Prop :=
  (0 <= dragCounter s)%Z /\ ((0 < dragCounter s)%Z -> isDragging s = true).

(** The inputs that are part of a drag: the drag events of both sources and
    the dispatch of a drop, before its promises settle. *)
Definition isDragInput (input : Input) : bool :=
  match input with
  | InEvent (EvDragEnter _) | InEvent (EvDragLeave _) | InEvent (EvDragOver _)
  | InEvent (EvDrop _) | InEvent (EvGlobalDragEnter _)
  | InEvent (EvGlobalDragOver _) | InEvent (EvGlobalDragLeave _)
  | InEvent (EvGlobalDrop _ _) | InEvent (EvNative _) => true
  | _ => false
  end.

(** What a drag leaves alone: text, gallery, loading flag and settings. *)
Definition bufferPart (s : State)
  : string * list ImageRecord * bool * gmap string Js.value :=
  (content s, uploadedImages s, isLoading s, appSettings s).

(** ** Lines of the buffer *)

(** [array.join(sep)] on an array of strings. *)
Fixpoint joinWith (sep : string) (l : list string) : string :=
  match l with
  | [] => ""
  | [x] => x
  | x :: rest => x +:+ sep +:+ joinWith sep rest
  end.

(** The first [k] lines, each with its line feed. *)
Definition linesBefore (k : nat) (lines : list string) : string :=
  foldr (fun line acc => line +:+ Js.LF +:+ acc) "" (take k lines).

(** A string without the code unit [sep]. *)
Fixpoint noSep (sep : ascii) (s : string) : bool :=
  match s with
  | EmptyString => true
  | String c s' => negb (Ascii.eqb c sep) && noSep sep s'
  end.

(** A textarea that reports no caret, at the origin, with 20px lines. *)
Definition sampleDomNoCaret : Dom :=
  mkDom (Some (mkTextarea (mkRect 0 100 0 100) None (Some 20%Z) 0)).

(** ** The settings window: recording a shortcut *)

(** Upper-casing of one code unit below 256.  The sharp s becomes ["SS"];
    the micro sign and the y with diaeresis, whose capitals (U+039C, U+0178)
    are not among the code units modelled, are left as they are. *)
Definition upperChar (c : ascii) : string :=
  let n := nat_of_ascii c in
  if ((97 <=? n) && (n <=? 122)) ||
     ((224 <=? n) && (n <=? 254) && negb (n =? 247))
  then String (ascii_of_nat (n - 32)) ""
  else if n =? 223 then "SS"
  else String c "".

(** [s.toUpperCase()]. *)
Fixpoint toUpperCase (s : string) : string :=
  match s with
  | EmptyString => EmptyString
  | String c s' => upperChar c +:+ toUpperCase s'
  end.

(** The [keydown] event of a shortcut field: the flags and [key] as before,
    and [code].  [code] ranges over the key codes of a keyboard, none of
    which names a property every object inherits. *)
Record ShortcutKeyEvent : Type := mkShortcutKeyEvent {
  pressed : KeyEvent;
  code : string
}.

Definition keyMap : list (string * string) :=
  [("Space", "Space"); ("Escape", "Escape"); ("Enter", "Enter");
   ("Backspace", "Backspace"); ("Delete", "Delete"); ("ArrowUp", "Up");
   ("ArrowDown", "Down"); ("ArrowLeft", "Left"); ("ArrowRight", "Right");
   ("Tab", "Tab"); ("Home", "Home"); ("End", "End"); ("PageUp", "PageUp");
   ("PageDown", "PageDown")].

Definition keyMapLookup (k : string) : option string :=
  snd <$> List.find (fun kv => String.eqb (fst kv) k) keyMap.

(** The key name recorded for a key code, when there is one. *)
Definition recordedKey (code : string) : option string :=
  match keyMapLookup code with
  | Some k => Some k
  | None =>
      if String.prefix "Key" code
      then Some (toUpperCase (Js.substring1 code 3))
      else if String.prefix "Digit" code then Some (Js.substring1 code 5)
      else if String.prefix "F" code && (String.length code <=? 3)
      then Some code
      else None
  end.

Definition recordedModifiers (e : KeyEvent) : list string :=
  (if metaKey e then ["Cmd"] else [])
  ++ (if ctrlKey e then ["Ctrl"] else [])
  ++ (if shiftKey e then ["Shift"] else [])
  ++ (if altKey e then ["Alt"] else []).

(** The shortcut [handleShortcutKeyDown] records for an event, if any. *)
Definition recordShortcut (ev : ShortcutKeyEvent) : option string :=
  if Js.includes ["Control"; "Shift"; "Alt"; "Meta"; "Command"]
                 (key (pressed ev))
  then None
  else
    match recordedKey (code ev) with
    | None => None
    | Some k =>
        if length (recordedModifiers (pressed ev)) =? 0 then None
        else Some (joinWith "+" (recordedModifiers (pressed ev) ++ [k]))
    end.

(** [handleShortcutKeyDown(event, field)] on the settings being edited. *)
Definition handleShortcutKeyDown (ev : ShortcutKeyEvent) (field : string)
    (settings : gmap string Js.value) : gmap string Js.value :=
  match recordShortcut ev with
  | Some shortcut => <[field := Js.VStr shortcut]> settings
  | None => settings
  end.

(** A key name that survives the parsing of a shortcut: no ["+"], nothing
    for [trim] to strip, not empty and not a modifier name. *)
Definition plainKey (k : string) : bool :=
  noSep "+"%char k
  && String.eqb (Js.trim k) k
  && negb (String.eqb k "")
  && negb (Js.includes modifierNames k).

(** * Properties *)

(** ** Strings *)

Section StringFacts.

Implicit Types s a b c : string.

Lemma append_nil_l s : "" +:+ s = s.
Proof. reflexivity. Qed.

Lemma append_cons x a b : String x a +:+ b = String x (a +:+ b).
Proof. reflexivity. Qed.

Lemma append_nil_r s : s +:+ "" = s.
Proof.
  induction s as [|x s IH]; [reflexivity|].
  now rewrite append_cons, IH.
Qed.

Lemma append_assoc a b c : (a +:+ b) +:+ c = a +:+ b +:+ c.
Proof.
  induction a as [|x a IH]; [reflexivity|].
  now rewrite !append_cons, IH.
Qed.

Lemma length_append a b :
  String.length (a +:+ b) = String.length a + String.length b.
Proof.
  induction a as [|x a IH]; [reflexivity|].
  rewrite append_cons. simpl. now rewrite IH.
Qed.

Lemma length_zero s : String.length s = 0 -> s = "".
Proof. destruct s; simpl; [reflexivity | discriminate]. Qed.

Lemma substring_0_all s n : String.length s <= n -> String.substring 0 n s = s.
Proof.
  revert n; induction s as [|x s IH]; intros [|n] Hn; simpl in *;
    try reflexivity; try lia.
  rewrite IH by lia; reflexivity.
Qed.

Lemma substring_skip a b n :
  String.substring (String.length a) n (a +:+ b) = String.substring 0 n b.
Proof.
  induction a as [|x a IH]; [reflexivity|].
  rewrite append_cons. simpl. exact IH.
Qed.

Lemma substring_0_append a b :
  String.substring 0 (String.length a) (a +:+ b) = a.
Proof.
  induction a as [|x a IH].
  - destruct b; reflexivity.
  - rewrite append_cons. simpl. now rewrite IH.
Qed.

Lemma substring_cut s p :
  p <= String.length s ->
  String.substring 0 p s +:+ String.substring p (String.length s - p) s = s.
Proof.
  revert p; induction s as [|x s IH]; intros [|p] Hp; simpl in *; try lia.
  - reflexivity.
  - rewrite substring_0_all by lia. reflexivity.
  - rewrite append_cons, IH by lia. reflexivity.
Qed.

Lemma length_substring_0 s p :
  p <= String.length s -> String.length (String.substring 0 p s) = p.
Proof.
  revert p; induction s as [|x s IH]; intros [|p] Hp; simpl in *;
    try reflexivity; try lia.
  rewrite IH by lia; reflexivity.
Qed.

(** [endsWith] is "has this suffix". *)
Lemma endsWith_iff s t :
  Js.endsWith s t = true <-> exists p, s = p +:+ t.
Proof.
  unfold Js.endsWith. rewrite andb_true_iff, Nat.leb_le, String.eqb_eq.
  split.
  - intros [Hlen Heq].
    exists (String.substring 0 (String.length s - String.length t) s).
    assert (Hc := substring_cut s (String.length s - String.length t)
                    ltac:(lia)).
    replace (String.length s - (String.length s - String.length t))
      with (String.length t) in Hc by lia.
    rewrite Heq in Hc. now symmetry.
  - intros [p ->]. rewrite length_append. split; [lia|].
    replace (String.length p + String.length t - String.length t)
      with (String.length p) by lia.
    rewrite substring_skip. apply substring_0_all. lia.
Qed.

Lemma endsWith_append a t : Js.endsWith (a +:+ t) t = true.
Proof. apply endsWith_iff. now exists a. Qed.

Lemma endsWith_longer s a t :
  Js.endsWith s (a +:+ t) = true -> Js.endsWith s t = true.
Proof.
  rewrite !endsWith_iff. intros [p ->]. exists (p +:+ a).
  now rewrite append_assoc.
Qed.

Lemma substring2_0 s p :
  p <= String.length s -> Js.substring2 s 0 p = String.substring 0 p s.
Proof.
  intros Hp. unfold Js.substring2.
  rewrite (Nat.min_l p) by lia. simpl. now rewrite Nat.sub_0_r.
Qed.

Lemma substring1_eq s p :
  p <= String.length s ->
  Js.substring1 s p = String.substring p (String.length s - p) s.
Proof.
  intros Hp. unfold Js.substring1, Js.substring2.
  rewrite Nat.min_id, (Nat.min_l p) by lia.
  rewrite Nat.min_l, Nat.max_r by lia. reflexivity.
Qed.

(** Cutting a string at [p] and gluing the halves gives it back. *)
Lemma substring_before_after s p :
  p <= String.length s -> Js.substring2 s 0 p +:+ Js.substring1 s p = s.
Proof.
  intros Hp. rewrite substring2_0, substring1_eq by lia.
  now apply substring_cut.
Qed.

End StringFacts.

(** ** CaptureBufferManager: insertion *)

Section Insertion.

Implicit Types (content before after : string) (imgs : list ImageRecord).

Lemma lineStart_ref content md : lineStart (content +:+ md +:+ Js.LF).
Proof. right. rewrite <- append_assoc. apply endsWith_append. Qed.

Lemma lineStart_ensureLineBreak content : lineStart (ensureLineBreak content).
Proof.
  unfold ensureLineBreak, lineStart.
  destruct (0 <? String.length content) eqn:Hlen; simpl.
  - destruct (Js.endsWith content Js.LF) eqn:He; simpl; [now right|].
    right. apply endsWith_append.
  - left. apply length_zero. apply Nat.ltb_ge in Hlen. lia.
Qed.

Lemma lineStart_no_break content :
  lineStart content ->
  ((0 <? String.length content) && negb (Js.endsWith content Js.LF))
  = false.
Proof. intros [-> | ->]; [reflexivity | simpl; apply andb_false_r]. Qed.

Lemma insertImages_cons content pos img imgs :
  insertImages content pos (img :: imgs)
  = insertImages (fst (insertImage (content, pos) img))
                 (snd (insertImage (content, pos) img)) imgs.
Proof.
  unfold insertImages.
  change (fold_left insertImage (img :: imgs) (content, pos))
    with (fold_left insertImage imgs (insertImage (content, pos) img)).
  now destruct (insertImage (content, pos) img).
Qed.

(** Appending to a buffer that is at a line start. *)
Lemma insertImages_append content pos imgs :
  lineStart content -> String.length content <= pos ->
  insertImages content pos imgs
  = (content +:+ refLines imgs, pos + String.length (refLines imgs)).
Proof.
  revert content pos.
  induction imgs as [|img imgs IH]; intros content pos Hstart Hpos.
  - unfold insertImages. simpl. now rewrite append_nil_r, Nat.add_0_r.
  - rewrite insertImages_cons. unfold insertImage at 1 2.
    apply Nat.leb_le in Hpos as Hle. rewrite Hle.
    rewrite (lineStart_no_break _ Hstart). simpl fst. simpl snd.
    rewrite IH.
    + simpl refLines. rewrite !length_append, !append_assoc.
      f_equal. lia.
    + apply lineStart_ref.
    + rewrite !length_append. lia.
Qed.

(** Inserting between [before] and a non-empty [after], at a line
    start. *)
Lemma insertImages_between before after imgs :
  lineStart before -> 0 < String.length after ->
  insertImages (before +:+ after) (String.length before) imgs
  = (before +:+ refLines imgs +:+ after,
     String.length before + String.length (refLines imgs)).
Proof.
  revert before.
  induction imgs as [|img imgs IH]; intros before Hstart Hafter.
  - unfold insertImages. simpl. now rewrite Nat.add_0_r.
  - rewrite insertImages_cons. unfold insertImage at 1 2.
    assert (Hlt : (String.length (before +:+ after)
                   <=? String.length before) = false).
    { apply Nat.leb_gt. rewrite length_append. lia. }
    rewrite Hlt.
    assert (Hb : Js.substring2 (before +:+ after) 0 (String.length before)
                 = before).
    { rewrite substring2_0 by (rewrite length_append; lia).
      apply substring_0_append. }
    assert (Ha : Js.substring1 (before +:+ after) (String.length before)
                 = after).
    { rewrite substring1_eq by (rewrite length_append; lia).
      rewrite substring_skip. apply substring_0_all.
      rewrite length_append. lia. }
    rewrite Hb, Ha.
    assert (Hat : (Js.endsWith before Js.LF
                   || (String.length before =? 0)) = true).
    { destruct Hstart as [-> | ->]; [reflexivity | reflexivity]. }
    rewrite Hat. simpl fst. simpl snd.
    replace (before +:+ (markdown img +:+ Js.LF) +:+ after)
      with ((before +:+ markdown img +:+ Js.LF) +:+ after)
      by now rewrite !append_assoc.
    replace (String.length before + String.length (markdown img +:+ Js.LF))
      with (String.length (before +:+ markdown img +:+ Js.LF))
      by now rewrite !length_append.
    rewrite IH by (apply lineStart_ref || assumption).
    simpl refLines. rewrite !length_append, !append_assoc.
    f_equal. simpl. lia.
Qed.

(** The first reference of a batch inserted inside the buffer. *)
Lemma insertImage_inside content pos img :
  pos < String.length content ->
  let before := Js.substring2 content 0 pos in
  let after := Js.substring1 content pos in
  let before' :=
    before +:+ lineBreakAfter before +:+ markdown img +:+ Js.LF in
  insertImage (content, pos) img = (before' +:+ after, String.length before').
Proof.
  intros Hpos before after before'. unfold insertImage.
  assert (Hlt : (String.length content <=? pos) = false)
    by (apply Nat.leb_gt; lia).
  rewrite Hlt. fold before. fold after.
  assert (Hlen : String.length before = pos).
  { unfold before. rewrite substring2_0 by lia.
    apply length_substring_0. lia. }
  unfold before', lineBreakAfter.
  destruct (Js.endsWith before Js.LF || (String.length before =? 0))
    eqn:Hat; cbn [negb andb].
  - rewrite append_nil_l, !length_append, !append_assoc, Hlen.
    reflexivity.
  - assert (H2 : Js.endsWith before (Js.LF +:+ Js.LF) = false).
    { apply orb_false_iff in Hat as [Hat _].
      destruct (Js.endsWith before (Js.LF +:+ Js.LF)) eqn:E; [|reflexivity].
      apply endsWith_longer in E. congruence. }
    rewrite H2. cbn [negb].
    rewrite !length_append, !append_assoc, Hlen.
    f_equal; change (String.length Js.LF) with 1; lia.
Qed.

End Insertion.

(** Appending a batch at or beyond the end of the buffer. *)
Lemma insertImages_end_text (content : string) (pos : nat)
    (imgs : list ImageRecord) :
  String.length content <= pos ->
  imgs <> [] ->
  fst (insertImages content pos imgs)
  = ensureLineBreak content +:+ refLines imgs.
Proof.
  intros Hpos Hne. destruct imgs as [|img rest]; [contradiction|].
  rewrite insertImages_cons. unfold insertImage at 1 2.
  apply Nat.leb_le in Hpos as Hle. rewrite Hle.
  unfold ensureLineBreak.
  destruct ((0 <? String.length content)
            && negb (Js.endsWith content Js.LF)); cbn [fst snd];
    (rewrite insertImages_append;
     [ cbn [fst refLines foldr]; now rewrite !append_assoc
     | apply lineStart_ref
     | rewrite !length_append in *; lia ]).
Qed.

(** C3. A batch inserted at or beyond the end of the buffer: the buffer is
    first made to end with a line feed (one is appended only when the buffer
    is not empty and lacks one), then every reference is appended, each
    followed by a line feed, in batch order. *)
Theorem insertImages_at_end (content : string) (pos : nat)
    (imgs : list ImageRecord) :
  String.length content <= pos ->
  imgs <> [] ->
  fst (insertImages content pos imgs)
  = (if (0 <? String.length content) && negb (Js.endsWith content Js.LF)
     then content +:+ Js.LF else content)
    +:+ refLines imgs.
Proof. exact (insertImages_end_text content pos imgs). Qed.

(** The batch of the specification: a.png and b.png at the end of the buffer
    ["X"]. *)
Lemma insertImages_at_end_witness :
  String.length "X" <= 1
  /\ [recordOf "a.png" "![[a.png]]"; recordOf "b.png" "![[b.png]]"] <> []
  /\ fst (insertImages "X" 1
            [recordOf "a.png" "![[a.png]]"; recordOf "b.png" "![[b.png]]"])
     = "X" +:+ Js.LF +:+ "![[a.png]]" +:+ Js.LF +:+ "![[b.png]]" +:+ Js.LF.
Proof.
  split; [simpl; lia|]. split; [discriminate|].
  exact (insertImages_at_end "X" 1
           [recordOf "a.png" "![[a.png]]"; recordOf "b.png" "![[b.png]]"]
           (le_n 1) ltac:(discriminate)).
Defined.

(** C4. A batch inserted strictly inside the buffer: the buffer is cut at the
    position into [before] and [after]; a line feed is put in front of the
    references unless [before] is empty or already ends with one, so the text
    in front of the first reference is empty or ends with a line feed; then
    come the references, each followed by a line feed, and [after]. *)
Theorem insertImages_inside (content : string) (pos : nat)
    (imgs : list ImageRecord) :
  pos < String.length content ->
  imgs <> [] ->
  let before := Js.substring2 content 0 pos in
  let after := Js.substring1 content pos in
  content = before +:+ after
  /\ fst (insertImages content pos imgs)
     = before +:+ lineBreakAfter before +:+ refLines imgs +:+ after
  /\ lineStart (before +:+ lineBreakAfter before).
Proof.
  intros Hpos Hne before after.
  split; [symmetry; apply substring_before_after; lia|].
  split.
  - destruct imgs as [|img rest]; [contradiction|].
    rewrite insertImages_cons, insertImage_inside by assumption.
    cbn [fst snd]. fold before. fold after.
    assert (Hafter : 0 < String.length after).
    { assert (Hc := substring_before_after content pos ltac:(lia)).
      fold before in Hc. fold after in Hc.
      assert (Hb : String.length before = pos).
      { unfold before. rewrite substring2_0 by lia.
        apply length_substring_0. lia. }
      apply (f_equal String.length) in Hc.
      rewrite length_append in Hc. lia. }
    rewrite insertImages_between;
      [| rewrite <- !append_assoc; right; apply endsWith_append | exact Hafter].
    cbn [fst refLines foldr]. now rewrite !append_assoc.
  - unfold lineBreakAfter, lineStart.
    destruct (Js.endsWith before Js.LF) eqn:He; cbn [orb].
    + right. now rewrite append_nil_r.
    + destruct (String.length before =? 0) eqn:Hz.
      * left. apply Nat.eqb_eq in Hz. apply length_zero in Hz.
        now rewrite Hz.
      * right. apply endsWith_append.
Qed.

(** The insertion of the specification: a.png at position 0 of ["hello"];
    the first line of the result is the reference, the second is
    ["hello"]. *)
Lemma insertImages_inside_witness :
  0 < String.length "hello"
  /\ [recordOf "a.png" "![[a.png]]"] <> []
  /\ fst (insertImages "hello" 0 [recordOf "a.png" "![[a.png]]"])
     = "![[a.png]]" +:+ Js.LF +:+ "hello"
  /\ Js.split (ascii_of_nat 10)
       (fst (insertImages "hello" 0 [recordOf "a.png" "![[a.png]]"]))
     = ["![[a.png]]"; "hello"].
Proof.
  split; [simpl; lia|]. split; [discriminate|]. split.
  - exact (proj1 (proj2 (insertImages_inside "hello" 0
                           [recordOf "a.png" "![[a.png]]"]
                           ltac:(simpl; lia) ltac:(discriminate)))).
  - vm_compute. reflexivity.
Defined.

(** ** ShortcutMatcher *)

(** With Cmd configured, the modifiers match exactly when meta or control is
    down and control, shift and alt are as configured. *)
Lemma modifiersMatch_cmd (event : KeyEvent) (modifiers : Modifiers) :
  hasCmd modifiers = true ->
  modifiersMatch event modifiers = true
  <-> (metaKey event = true \/ ctrlKey event = true)
      /\ ctrlKey event = hasCtrl modifiers
      /\ shiftKey event = hasShift modifiers
      /\ altKey event = hasAlt modifiers.
Proof.
  destruct event as [m c sh a k], modifiers as [hm hc hs ha]; simpl.
  intros ->. unfold modifiersMatch; simpl.
  destruct m, c, sh, a, hc, hs, ha; simpl; intuition congruence.
Qed.

(** Without Cmd configured, the meta flag is only looked at when the control
    flag is down. *)
Lemma modifiersMatch_no_cmd (event : KeyEvent) (modifiers : Modifiers) :
  hasCmd modifiers = false ->
  modifiersMatch event modifiers = true
  <-> (metaKey event = false \/ ctrlKey event = false)
      /\ ctrlKey event = hasCtrl modifiers
      /\ shiftKey event = hasShift modifiers
      /\ altKey event = hasAlt modifiers.
Proof.
  destruct event as [m c sh a k], modifiers as [hm hc hs ha]; simpl.
  intros ->. unfold modifiersMatch; simpl.
  destruct m, c, sh, a, hc, hs, ha; simpl; intuition congruence.
Qed.

(** The example of the specification: ["Cmd+Enter"] matches meta+Enter and
    does not match once shift is down too. *)
Lemma matchesShortcut_cmd_enter :
  matchesShortcut (mkKeyEvent true false false false "Enter") "Cmd+Enter"
  = true
  /\ matchesShortcut (mkKeyEvent true false true false "Enter") "Cmd+Enter"
     = false.
Proof. split; vm_compute; reflexivity. Qed.

(** C1. The shortcuts ["Shift+Enter"] and ["Enter"] do not configure Cmd, and
    yet [matchesShortcut] accepts for them an event whose meta flag is set:
    the meta flag is compared with the Cmd requirement only in a disjunction
    with the control flag, which is up here. *)
Theorem matchesShortcut_meta_without_cmd :
  hasCmd (shortcutModifiers (shortcutParts "Shift+Enter")) = false
  /\ matchesShortcut (mkKeyEvent true false true false "Enter") "Shift+Enter"
     = true
  /\ hasCmd (shortcutModifiers (shortcutParts "Enter")) = false
  /\ matchesShortcut (mkKeyEvent true false false false "Enter") "Enter"
     = true.
Proof. repeat split; vm_compute; reflexivity. Qed.

(** ** The listeners of the host's events *)

Lemma trimEnd_not_empty (c : ascii) (s : string) :
  Js.isWhiteSpace c = false -> Js.trimEnd (String c s) <> "".
Proof. intros Hc. simpl. rewrite Hc. discriminate. Qed.

Lemma trimStart_allWhiteSpace (s : string) :
  if allWhiteSpace s then Js.trimStart s = ""
  else exists c r, Js.trimStart s = String c r /\ Js.isWhiteSpace c = false.
Proof.
  induction s as [|c s IH]; simpl; [reflexivity|].
  destruct (Js.isWhiteSpace c) eqn:Hc; simpl.
  - exact IH.
  - exists c, s. now split.
Qed.

(** [trim] leaves nothing exactly of the strings made of white space. *)
Lemma trim_empty_iff (s : string) :
  String.eqb (Js.trim s) "" = allWhiteSpace s.
Proof.
  unfold Js.trim. pose proof (trimStart_allWhiteSpace s) as H.
  destruct (allWhiteSpace s).
  - now rewrite H.
  - destruct H as (c & r & -> & Hc).
    apply String.eqb_neq. now apply trimEnd_not_empty.
Qed.

(** C10. [insert_capture_text] replaces the buffer text: a string payload
    with a code unit that is not white space becomes the buffer text, and
    nothing else of the state changes; a payload that is white space only, or
    not a string, changes nothing. *)
Theorem insert_capture_text_replaces (payload : Js.value) (s : State) :
  match payload with
  | Js.VStr t =>
      if allWhiteSpace t then insert_capture_text payload s = s
      else content (insert_capture_text payload s) = t
           /\ uploadedImages (insert_capture_text payload s)
              = uploadedImages s
           /\ insert_capture_text payload s = set_content t s
  | _ => insert_capture_text payload s = s
  end.
Proof.
  unfold insert_capture_text.
  destruct payload as [| |b|q|t|l]; try reflexivity.
  rewrite trim_empty_iff. destruct (allWhiteSpace t); [reflexivity|].
  repeat split.
Qed.

(** C7. The [show_capture] listener is idempotent and leaves the buffer as a
    freshly constructed one: text, gallery and status message empty, no drag
    in progress, nothing loading, no preview left to revoke, and the same
    rendering as the initial state. *)
Theorem show_capture_idempotent_fresh (s : State) :
  show_capture (show_capture s) = show_capture s
  /\ content (show_capture s) = content initialState
  /\ uploadedImages (show_capture s) = uploadedImages initialState
  /\ statusMessage (show_capture s) = statusMessage initialState
  /\ isDragging (show_capture s) = isDragging initialState
  /\ dragCounter (show_capture s) = dragCounter initialState
  /\ isLoading (show_capture s) = isLoading initialState
  /\ render (show_capture s) = render initialState
  /\ render (show_capture (show_capture s)) = render (show_capture s)
  /\ revokedPreviews (show_capture s) = [].
Proof. repeat split. Qed.

(** C8. The [settings_changed] listener merges field by field: a field of
    the local copy ends up with the snapshot's value only if it is one of the
    eleven merged fields and the snapshot holds a value for it; a field the
    snapshot lacks (or holds as null) keeps its local value, so every field
    has afterwards either its previous value or the snapshot's, and the rest
    of the state is untouched. *)
Theorem settings_changed_merges (s : State)
    (newSettings : gmap string Js.value) (k : string) :
  let s' := settings_changed (Some newSettings) s in
  (newSettings !! k = None ->
   Js.get (appSettings s') k = Js.get (appSettings s) k)
  /\ (Js.isNullish (Js.get newSettings k) = true ->
      Js.get (appSettings s') k = Js.get (appSettings s) k)
  /\ (k ∈ settingsFields -> Js.isNullish (Js.get newSettings k) = false ->
      Js.get (appSettings s') k = Js.get newSettings k)
  /\ (k ∉ settingsFields ->
      appSettings s' !! k = appSettings s !! k)
  /\ (Js.get (appSettings s') k = Js.get (appSettings s) k
      \/ Js.get (appSettings s') k = Js.get newSettings k
         /\ Js.isNullish (Js.get newSettings k) = false)
  /\ s' = set_appSettings (appSettings s') s
  /\ settings_changed None s = s.
Proof.
  intros s'.
  assert (Hget : forall fields : list string,
    foldr (fun k acc =>
             <[k := Js.coalesce (Js.get newSettings k)
                                (Js.get (appSettings s) k)]> acc)
          (appSettings s) fields !! k
    = if decide (k ∈ fields)
      then Some (Js.coalesce (Js.get newSettings k) (Js.get (appSettings s) k))
      else appSettings s !! k).
  { induction fields as [|f fields IH]; simpl.
    - repeat case_decide; first [reflexivity | set_solver].
    - destruct (decide (f = k)) as [->|Hne].
      + rewrite lookup_insert_eq.
        destruct (decide (k ∈ k :: fields)); [reflexivity | set_solver].
      + rewrite lookup_insert_ne by assumption. rewrite IH.
        destruct (decide (k ∈ fields)) as [Hin|Hin].
        * rewrite decide_True by (apply elem_of_cons; now right).
          reflexivity.
        * rewrite decide_False; [reflexivity|].
          intros [Heq|Hin']%elem_of_cons; [congruence | contradiction]. }
  assert (Hm : Js.get (appSettings s') k
               = if decide (k ∈ settingsFields)
                 then Js.coalesce (Js.get newSettings k)
                                  (Js.get (appSettings s) k)
                 else Js.get (appSettings s) k).
  { unfold s', settings_changed, Js.get at 1. simpl. unfold mergeSettings.
    rewrite Hget. now destruct (decide (k ∈ settingsFields)). }
  assert (Hnull : Js.isNullish (Js.get newSettings k) = true ->
                  Js.get (appSettings s') k = Js.get (appSettings s) k).
  { intros Hn. rewrite Hm. unfold Js.coalesce. rewrite Hn.
    now destruct (decide (k ∈ settingsFields)). }
  repeat split.
  - intros Hk. apply Hnull. unfold Js.get. now rewrite Hk.
  - exact Hnull.
  - intros Hin Hn. rewrite Hm, decide_True by assumption.
    unfold Js.coalesce. now rewrite Hn.
  - intros Hnin. unfold s', settings_changed. simpl. unfold mergeSettings.
    rewrite Hget. now rewrite decide_False by assumption.
  - destruct (Js.isNullish (Js.get newSettings k)) eqn:Hn.
    + left. now apply Hnull.
    + rewrite Hm. unfold Js.coalesce. rewrite Hn.
      destruct (decide (k ∈ settingsFields)); [right | left]; auto.
Qed.

(** ** DragDropTracker *)

Section DragState.

Variable h : Host.

Lemma showStatus_dragState message type s :
  dragState (showStatus message type s) = dragState s.
Proof.
  unfold showStatus. now destruct (negb (String.eqb type "error")).
Qed.

Lemma showEntryStatus_dragState l s :
  dragState (fold_left showEntryStatus l s) = dragState s.
Proof.
  revert s; induction l as [|fr l IH]; intros s; [reflexivity|].
  simpl. rewrite IH. unfold showEntryStatus.
  destruct (snd fr); try reflexivity; apply showStatus_dragState.
Qed.

(** A browser drop resets the drag state. *)
Lemma handleDrop_start_dragState e s :
  dragState (handleDrop_start h e s) = (0%Z, false).
Proof.
  unfold handleDrop_start. destruct (dataTransfer e).
  - destruct (length (dropFiles e) =? 0).
    + now rewrite showStatus_dragState.
    + now rewrite showEntryStatus_dragState.
  - now rewrite showStatus_dragState.
Qed.

(** So does a host-native drop. *)
Lemma handleTauriFileDrop_start_dragState ps s :
  dragState (handleTauriFileDrop_start ps s) = (0%Z, false).
Proof.
  unfold handleTauriFileDrop_start.
  destruct (length ps =? 0); [now rewrite showStatus_dragState|].
  destruct (length (tauriImagePaths ps) =? 0);
    [now rewrite showStatus_dragState | reflexivity].
Qed.

(** The continuations of the two drop handlers leave it alone. *)
Lemma handleDrop_resume_dragState dom e results s :
  dragState (handleDrop_resume dom e results s) = dragState s.
Proof.
  unfold handleDrop_resume.
  destruct (0 <? length (validImages results)); [|reflexivity].
  now rewrite showStatus_dragState.
Qed.

Lemma append_refs_dragState imgs s :
  dragState
    (fold_left
       (fun s img => set_content (content s +:+ markdown img +:+ Js.LF) s)
       imgs s)
  = dragState s.
Proof.
  revert s; induction imgs as [|img imgs IH]; intros s; [reflexivity|].
  simpl. now rewrite IH.
Qed.

Lemma handleTauriFileDrop_resume_dragState dom results s :
  dragState (handleTauriFileDrop_resume dom results s) = dragState s.
Proof.
  unfold handleTauriFileDrop_resume.
  destruct (0 <? length (validImages results)); [|reflexivity].
  rewrite showStatus_dragState, append_refs_dragState.
  now destruct ((0 <? String.length _) && negb _).
Qed.

(** No handler makes the counter negative. *)
Lemma step_dragCounter s ev :
  (0 <= dragCounter s)%Z -> (0 <= dragCounter (step h s ev))%Z.
Proof.
  intros Hs.
  change (dragCounter (step h s ev)) with (fst (dragState (step h s ev))).
  destruct ev as [dt|e|dt|e|dt|dt|b|b e|payload|dom e|dom ps|msg| | |p|p];
    simpl step.
  - unfold handleDragEnter. destruct (isFileDrag dt); [|exact Hs].
    simpl. destruct (dragCounter s + 1 =? 1)%Z; simpl; lia.
  - unfold handleDragLeave. destruct (_ || _); [|exact Hs].
    simpl. destruct (dragCounter s - 1 <=? 0)%Z eqn:Hle; simpl; lia.
  - unfold handleDragOver. destruct (isFileDrag dt); [|exact Hs].
    destruct (negb (isDragging s)); exact Hs.
  - rewrite handleDrop_start_dragState. simpl. lia.
  - unfold globalDragEnter. destruct (negb (isFileDrag dt)); [exact Hs|].
    simpl. lia.
  - exact Hs.
  - unfold globalDragLeave. destruct b; [simpl; lia | exact Hs].
  - unfold globalDrop_start. destruct b; [|exact Hs].
    rewrite handleDrop_start_dragState. simpl. lia.
  - unfold handleDragDropEvent. destruct payload as [payload|]; [|exact Hs].
    destruct (_ || _); [exact Hs|].
    destruct (String.eqb (ptype payload) "leave"); [simpl; lia|].
    destruct (String.eqb (ptype payload) "drop"); [|exact Hs].
    destruct (paths payload); [|simpl; lia].
    rewrite handleTauriFileDrop_start_dragState. simpl. lia.
  - now rewrite handleDrop_resume_dragState.
  - now rewrite handleTauriFileDrop_resume_dragState.
  - unfold entryRejected. now rewrite showStatus_dragState.
  - exact Hs.
  - simpl. lia.
  - unfold insert_capture_text. now destruct (String.eqb _ _).
  - unfold settings_changed. now destruct p.
Qed.

Lemma run_dragCounter evs s :
  (0 <= dragCounter s)%Z -> (0 <= dragCounter (run h s evs))%Z.
Proof.
  revert s; induction evs as [|ev evs IH]; intros s Hs; [exact Hs|].
  apply IH. now apply step_dragCounter.
Qed.

(** Every drop resets the drag state. *)
Lemma step_drop_resets s ev :
  isDropEvent ev = true -> dragState (step h s ev) = (0%Z, false).
Proof.
  destruct ev as [dt|e|dt|e|dt|dt|b|b e|payload|dom e|dom ps|msg| | |p|p];
    simpl; try discriminate.
  - intros _. apply handleDrop_start_dragState.
  - intros ->. apply handleDrop_start_dragState.
  - destruct payload as [payload|]; [|discriminate]. intros Hdrop.
    unfold handleDragDropEvent.
    apply String.eqb_eq in Hdrop as Hty. rewrite Hty. simpl.
    destruct (paths payload); [|reflexivity].
    apply handleTauriFileDrop_start_dragState.
Qed.

End DragState.

(** C6. Whatever handlers run, starting from a counter that is not negative:
    the nesting counter is not negative after any of them, and right after
    every drop it is 0 and [isDragging] is false. *)
Theorem dragCounter_never_negative (h : Host) (s : State) (evs : list Event) :
  (0 <= dragCounter s)%Z ->
  (forall n, (0 <= dragCounter (run h s (take n evs)))%Z)
  /\ (forall pre ev post,
        evs = pre ++ ev :: post -> isDropEvent ev = true ->
        dragCounter (run h s (pre ++ [ev])) = 0%Z
        /\ isDragging (run h s (pre ++ [ev])) = false).
Proof.
  intros Hs. split.
  - intros n. now apply run_dragCounter.
  - intros pre ev post _ Hdrop. unfold run. rewrite fold_left_app. simpl.
    pose proof (step_drop_resets h (fold_left (step h) pre s) ev Hdrop) as H.
    unfold dragState in H. now inversion H.
Qed.

(** An enter, two leaves outside the container and a drop, from the initial
    state. *)
Lemma dragCounter_never_negative_witness :
  (0 <= dragCounter initialState)%Z
  /\ (forall n,
        (0 <= dragCounter
                (run sampleHost initialState
                   (take n [EvDragEnter (Some sampleTransfer);
                            EvDragLeave sampleLeave; EvDragLeave sampleLeave;
                            EvDrop sampleDrop])))%Z)
  /\ dragCounter
       (run sampleHost initialState
          [EvDragEnter (Some sampleTransfer); EvDragLeave sampleLeave;
           EvDragLeave sampleLeave; EvDrop sampleDrop]) = 0%Z.
Proof.
  assert (H0 : (0 <= dragCounter initialState)%Z) by (simpl; lia).
  pose proof (dragCounter_never_negative sampleHost initialState
                [EvDragEnter (Some sampleTransfer); EvDragLeave sampleLeave;
                 EvDragLeave sampleLeave; EvDrop sampleDrop] H0) as [Hn Hd].
  split; [exact H0|]. split; [exact Hn|].
  exact (proj1 (Hd [EvDragEnter (Some sampleTransfer);
                    EvDragLeave sampleLeave; EvDragLeave sampleLeave]
                   (EvDrop sampleDrop) [] eq_refl eq_refl)).
Defined.

(** ** Drop batches *)

Section Batches.

Variable h : Host.

Lemma showStatus_success message s : showStatus message "success" s = s.
Proof. reflexivity. Qed.

Lemma set_content_same s : set_content (content s) s = s.
Proof. now destruct s. Qed.

(** The [forEach] of [handleTauriFileDrop] appends the references. *)
Lemma append_refs imgs s :
  fold_left
    (fun s img => set_content (content s +:+ markdown img +:+ Js.LF) s)
    imgs s
  = set_content (content s +:+ refLines imgs) s.
Proof.
  revert s; induction imgs as [|img imgs IH]; intros s.
  - simpl. now rewrite append_nil_r, set_content_same.
  - simpl fold_left. rewrite IH. simpl refLines.
    unfold set_content at 1 3. simpl. now rewrite !append_assoc.
Qed.

Lemma length_validImages_pos results :
  validImages results <> [] -> (0 <? length (validImages results)) = true.
Proof.
  intros Hne. apply Nat.ltb_lt.
  destruct (validImages results); [contradiction | simpl; lia].
Qed.









End Batches.

(** *** Each entry, by what the host answers *)

Section Entries.

Variable h : Host.








End Entries.


(** C9. A host-native drop whose batch has at least one resolved image: when
    its promises settle, the references are appended to the text the buffer
    holds by then, after a line feed if that text is not empty and lacks one,
    each followed by a line feed, in batch order, and the records are
    appended to the gallery.  Neither the textarea (caret, geometry) nor the
    position the host reported plays a part. *)
Theorem native_drop_appends (h : Host) (s : State) (ps : list string)
    (position : option (Q * Q)) (dom : Dom) :
  validImages (tauriResults h ps) <> [] ->
  let valid := validImages (tauriResults h ps) in
  let settled := handleTauriFileDrop_resume dom (tauriResults h ps) s in
  let dropped :=
    run h s [EvNative (Some (mkNativePayload "drop" (Some ps) position));
             EvNativeDropSettled dom ps] in
  content settled = ensureLineBreak (content s) +:+ refLines valid
  /\ uploadedImages settled = uploadedImages s ++ valid
  /\ content dropped = ensureLineBreak (content s) +:+ refLines valid
  /\ uploadedImages dropped = uploadedImages s ++ valid.
Proof.
  intros Hne valid settled dropped.
  assert (Hresume : forall s0,
    handleTauriFileDrop_resume dom (tauriResults h ps) s0
    = set_content (ensureLineBreak (content s0) +:+ refLines valid)
        (set_uploadedImages (uploadedImages s0 ++ valid) s0)).
  { intros s0. unfold handleTauriFileDrop_resume, valid.
    rewrite (length_validImages_pos _ Hne).
    rewrite showStatus_success, append_refs. unfold ensureLineBreak.
    now destruct ((0 <? String.length _) && negb _). }
  assert (Hstart : forall s0,
    content (handleTauriFileDrop_start ps s0) = content s0
    /\ uploadedImages (handleTauriFileDrop_start ps s0) = uploadedImages s0).
  { intros s0. unfold handleTauriFileDrop_start.
    destruct (length ps =? 0); [now split|].
    destruct (length (tauriImagePaths ps) =? 0); now split. }
  unfold settled, dropped, run. simpl fold_left. rewrite !Hresume.
  unfold handleDragDropEvent. simpl.
  destruct (Hstart (set_dragCounter 0%Z (set_isDragging false s)))
    as [Hc Hu].
  simpl in Hc, Hu. rewrite Hc, Hu. repeat split.
Qed.

(** Two paths dropped by the host on the buffer ["X"], one of them not an
    image. *)
Lemma native_drop_appends_witness :
  validImages (tauriResults sampleHost ["/tmp/a.png"; "/tmp/notes.txt"]) <> []
  /\ content
       (run sampleHost sampleState
          [EvNative (Some (mkNativePayload "drop"
                             (Some ["/tmp/a.png"; "/tmp/notes.txt"])
                             (Some (10, 10)%Q)));
           EvNativeDropSettled sampleDom ["/tmp/a.png"; "/tmp/notes.txt"]])
     = "X" +:+ Js.LF +:+ "![[a.png]]" +:+ Js.LF.
Proof.
  assert (Hne : validImages
                  (tauriResults sampleHost ["/tmp/a.png"; "/tmp/notes.txt"])
                <> []) by (vm_compute; discriminate).
  split; [exact Hne|].
  exact (proj1 (proj2 (proj2
           (native_drop_appends sampleHost sampleState
              ["/tmp/a.png"; "/tmp/notes.txt"] (Some (10, 10)%Q) sampleDom
              Hne)))).
Defined.

(** ** Results that arrive after a reset *)

(** The buffer ["X"], a dropped a.png, a reset while it is being saved: when
    the save completes, the reference is in the text and the record in the
    gallery. *)
Lemma stale_results_not_discarded :
  ~ staleResultsDiscarded sampleHost sampleState sampleDrop sampleDom.
Proof.
  unfold staleResultsDiscarded. intros [Hc _]. vm_compute in Hc.
  discriminate Hc.
Qed.

(** C2 as the code has it.  A browser drop is dispatched, [show_capture]
    resets the buffer while the drop's promises are pending, and then they
    settle with at least one image resolved: the batch is applied to the
    reset buffer, whose text becomes the references of the batch, each
    followed by a line feed, and whose gallery becomes the records of the
    batch. *)
Theorem stale_results_applied (h : Host) (s : State) (e : DropEvt)
    (dom : Dom) :
  validImages (dropResults h e) <> [] ->
  let settled := run h s [EvDrop e; EvShowCapture; EvDropSettled dom e] in
  content settled = refLines (validImages (dropResults h e))
  /\ uploadedImages settled = validImages (dropResults h e)
  /\ ~ staleResultsDiscarded h s e dom.
Proof.
  intros Hne settled.
  assert (Hc : content settled = refLines (validImages (dropResults h e))).
  { unfold settled, run. simpl fold_left. unfold handleDrop_resume.
    rewrite (length_validImages_pos _ Hne), showStatus_success.
    simpl content. rewrite insertImages_end_text; [reflexivity| |exact Hne].
    simpl. lia. }
  assert (Hu : uploadedImages settled = validImages (dropResults h e)).
  { unfold settled, run. simpl fold_left. unfold handleDrop_resume.
    rewrite (length_validImages_pos _ Hne), showStatus_success.
    reflexivity. }
  repeat split; [exact Hc | exact Hu |].
  unfold staleResultsDiscarded. fold settled. intros [_ Hu'].
  rewrite Hu in Hu'. simpl in Hu'. contradiction.
Qed.

Lemma stale_results_applied_witness :
  validImages (dropResults sampleHost sampleDrop) <> []
  /\ content
       (run sampleHost sampleState
          [EvDrop sampleDrop; EvShowCapture;
           EvDropSettled sampleDom sampleDrop])
     = "![[a.png]]" +:+ Js.LF
  /\ length
       (uploadedImages
          (run sampleHost sampleState
             [EvDrop sampleDrop; EvShowCapture;
              EvDropSettled sampleDom sampleDrop])) = 1.
Proof.
  assert (Hne : validImages (dropResults sampleHost sampleDrop) <> [])
    by (vm_compute; discriminate).
  destruct (stale_results_applied sampleHost sampleState sampleDrop sampleDom
              Hne) as (Hc & Hu & _).
  split; [exact Hne|]. split; [exact Hc|].
  rewrite Hu. reflexivity.
Defined.

(** * Further properties of the capture window *)

(** ** The gallery: [removeImage] *)

Lemma elem_of_filter_bool {A} (p : A -> bool) (l : list A) (x : A) :
  x ∈ List.filter p l <-> x ∈ l /\ p x = true.
Proof. rewrite !list_elem_of_In. apply filter_In. Qed.

Lemma filter_bool_sublist {A} (p : A -> bool) (l : list A) :
  List.filter p l `sublist_of` l.
Proof.
  induction l as [|x l IH]; [constructor|].
  simpl. destruct (p x); now constructor.
Qed.

Lemma filter_bool_all {A} (p : A -> bool) (l : list A) :
  (forall x, x ∈ l -> p x = true) -> List.filter p l = l.
Proof.
  induction l as [|x l IH]; intros Hall; [reflexivity|].
  simpl. rewrite Hall by (left). f_equal. apply IH.
  intros y Hy. apply Hall. now right.
Qed.

Lemma filter_bool_idem {A} (p : A -> bool) (l : list A) :
  List.filter p (List.filter p l) = List.filter p l.
Proof.
  apply filter_bool_all. intros x Hx. now apply elem_of_filter_bool in Hx.
Qed.

Lemma find_none_bool {A} (p : A -> bool) (l : list A) :
  (forall x, x ∈ l -> p x = false) -> List.find p l = None.
Proof.
  induction l as [|x l IH]; intros Hall; [reflexivity|].
  simpl. rewrite Hall by (left). apply IH.
  intros y Hy. apply Hall. now right.
Qed.

(** X1. [removeImage] keeps, in their order, exactly the records with another
    id; it changes nothing but the gallery, so the reference of the removed
    image stays in the text; doing it again changes nothing more; and when no
    record has the id, nothing changes and nothing is revoked. *)
Theorem removeImage_keeps_others (i : Q) (s : State) :
  (forall img,
     img ∈ uploadedImages (removeImage i s)
     <-> img ∈ uploadedImages s /\ Qeq_bool (id img) i = false)
  /\ uploadedImages (removeImage i s) `sublist_of` uploadedImages s
  /\ removeImage i s = set_uploadedImages (uploadedImages (removeImage i s)) s
  /\ content (removeImage i s) = content s
  /\ removeImage i (removeImage i s) = removeImage i s
  /\ ((forall img, img ∈ uploadedImages s -> Qeq_bool (id img) i = false) ->
      removeImage i s = s /\ removedPreview i s = []).
Proof.
  split; [|split; [|split; [|split; [|split]]]].
  - intros img. unfold removeImage. simpl.
    rewrite elem_of_filter_bool, negb_true_iff. reflexivity.
  - apply filter_bool_sublist.
  - reflexivity.
  - reflexivity.
  - unfold removeImage. simpl. now rewrite filter_bool_idem.
  - intros Hnone. split.
    + unfold removeImage. rewrite filter_bool_all; [now destruct s|].
      intros img Himg. apply negb_true_iff. now apply Hnone.
    + unfold removedPreview. now rewrite find_none_bool.
Qed.

(** The blob previews of a gallery, record by record. *)
Lemma blobPreviews_cons (a : ImageRecord) (imgs : list ImageRecord) :
  blobPreviews (a :: imgs)
  = (if negb (String.eqb (preview a) "") && String.prefix "blob:" (preview a)
     then [preview a] else [])
    ++ blobPreviews imgs.
Proof.
  unfold blobPreviews. simpl.
  now destruct (negb (String.eqb (preview a) "")
                && String.prefix "blob:" (preview a)).
Qed.

(** X2. When at most one record has the id, [removeImage] revokes exactly the
    blob preview that leaves the gallery: the blob previews held before are
    the one revoked together with those still held. *)
Theorem removeImage_revokes_what_leaves (i : Q) (s : State) :
  length (List.filter (fun img => Qeq_bool (id img) i) (uploadedImages s)) <= 1 ->
  blobPreviews (uploadedImages s)
  ≡ₚ removedPreview i s ++ blobPreviews (uploadedImages (removeImage i s)).
Proof.
  unfold removedPreview, removeImage. simpl.
  generalize (uploadedImages s) as imgs.
  induction imgs as [|a imgs IH]; intros Hone; [reflexivity|].
  simpl in *. rewrite blobPreviews_cons.
  destruct (Qeq_bool (id a) i) eqn:Ha; simpl in *.
  - assert (Hnone : forall img, img ∈ imgs -> Qeq_bool (id img) i = false).
    { intros img Himg. destruct (Qeq_bool (id img) i) eqn:Hi; [|reflexivity].
      assert (Hin : img ∈ List.filter (fun img => Qeq_bool (id img) i) imgs)
        by (apply elem_of_filter_bool; now split).
      destruct (List.filter _ imgs); [inversion Hin | simpl in Hone; lia]. }
    rewrite filter_bool_all; [reflexivity|].
    intros img Himg. apply negb_true_iff. now apply Hnone.
  - rewrite blobPreviews_cons. rewrite (IH Hone) at 1.
    rewrite !app_assoc. apply Permutation_app_tail.
    apply Permutation_app_comm.
Qed.

Lemma removeImage_revokes_what_leaves_witness :
  length (List.filter (fun img => Qeq_bool (id img) 2)
            (uploadedImages
               (set_uploadedImages
                  [mkImageRecord 1 "a.png" "![[a.png]]" "blob:a" None;
                   mkImageRecord 2 "b.png" "![[b.png]]" "blob:b" None]
                  initialState))) <= 1
  /\ ["blob:a"; "blob:b"]
     ≡ₚ ["blob:b"] ++ ["blob:a"].
Proof.
  assert (H1 : length (List.filter (fun img => Qeq_bool (id img) 2)
                 (uploadedImages
                    (set_uploadedImages
                       [mkImageRecord 1 "a.png" "![[a.png]]" "blob:a" None;
                        mkImageRecord 2 "b.png" "![[b.png]]" "blob:b" None]
                       initialState))) <= 1)
    by (vm_compute; lia).
  split; [exact H1|].
  exact (removeImage_revokes_what_leaves 2 _ H1).
Defined.

(** ** Saving the buffer *)

(** X4. A save that fails loses nothing: text and gallery are as they were
    when the failure arrived, the failure is shown, and the same text can be
    sent again by either command. *)
Theorem failed_save_can_be_retried (s : State) (e : string) :
  allWhiteSpace (content s) = false ->
  let failed := handleAppendToDaily_resume (Rejected e) s in
  handleSaveAsNote_resume (Rejected e) s = failed
  /\ content failed = content s
  /\ uploadedImages failed = uploadedImages s
  /\ statusMessage failed = failurePrefix +:+ e
  /\ statusType failed = "error"
  /\ handleAppendToDaily_start failed
     = (set_isLoading true failed, Some (Js.trim (content s)))
  /\ handleSaveAsNote_start failed
     = (set_isLoading true failed, Some (Js.trim (content s))).
Proof.
  intros Hws failed.
  unfold failed, handleAppendToDaily_resume, handleSaveAsNote_resume,
    handleAppendToDaily_start, handleSaveAsNote_start.
  simpl. rewrite trim_empty_iff, Hws. repeat split.
Qed.

Lemma failed_save_can_be_retried_witness :
  allWhiteSpace (content sampleState) = false
  /\ content (handleAppendToDaily_resume (Rejected "disk full")
                (set_isLoading true sampleState)) = "X"
  /\ snd (handleAppendToDaily_start
            (handleAppendToDaily_resume (Rejected "disk full") sampleState))
     = Some "X".
Proof.
  split; [reflexivity|]. split; [reflexivity|].
  pose proof (failed_save_can_be_retried sampleState "disk full" eq_refl)
    as (_ & _ & _ & _ & _ & H & _).
  now rewrite H.
Defined.

(** ** Keyboard shortcuts *)

Lemma includes_elem_of (l : list string) (x : string) :
  Js.includes l x = true <-> x ∈ l.
Proof.
  unfold Js.includes. rewrite existsb_exists, list_elem_of_In. split.
  - now intros (y & Hy & ->%String.eqb_eq).
  - intros Hx. exists x. split; [exact Hx | apply String.eqb_refl].
Qed.

(** X5. A shortcut made of modifier names only (or with nothing between its
    plus signs) is treated as unset: it matches no key press. *)
Theorem modifier_only_shortcut_never_matches (event : KeyEvent)
    (shortcutString : string) :
  (forall p, p ∈ shortcutParts shortcutString -> p ∈ modifierNames \/ p = "") ->
  matchesShortcut event shortcutString = false.
Proof.
  intros Hparts. unfold matchesShortcut.
  destruct (String.eqb shortcutString ""); [reflexivity|].
  destruct (shortcutKey (shortcutParts shortcutString)) as [k|] eqn:Hk;
    [|reflexivity].
  unfold shortcutKey in Hk. apply find_some in Hk as [Hin Hnot].
  apply list_elem_of_In in Hin. apply negb_true_iff in Hnot.
  destruct (Hparts k Hin) as [Hmod | ->]; [|reflexivity].
  apply includes_elem_of in Hmod. congruence.
Qed.

Lemma modifier_only_shortcut_never_matches_witness :
  (forall p, p ∈ shortcutParts "Cmd+Shift+" -> p ∈ modifierNames \/ p = "")
  /\ matchesShortcut (mkKeyEvent true false true false "") "Cmd+Shift+" = false.
Proof.
  assert (H : forall p, p ∈ shortcutParts "Cmd+Shift+" ->
                        p ∈ modifierNames \/ p = "").
  { intros p Hp. change (shortcutParts "Cmd+Shift+")
      with ["Cmd"; "Shift"; ""] in Hp.
    apply elem_of_cons in Hp as [->|Hp];
      [left; apply includes_elem_of; reflexivity|].
    apply elem_of_cons in Hp as [->|Hp];
      [left; apply includes_elem_of; reflexivity|].
    apply elem_of_cons in Hp as [->|Hp]; [now right|].
    inversion Hp. }
  split; [exact H|].
  exact (modifier_only_shortcut_never_matches _ _ H).
Defined.

(** What a match says about the modifiers. *)
Lemma matchesShortcut_modifiers (event : KeyEvent) (shortcutString : string) :
  matchesShortcut event shortcutString = true ->
  modifiersMatch event (shortcutModifiers (shortcutParts shortcutString))
  = true.
Proof.
  unfold matchesShortcut.
  destruct (String.eqb shortcutString ""); [discriminate|].
  destruct (shortcutKey _) as [k|]; [|discriminate].
  destruct (String.eqb k ""); [discriminate|].
  now intros [H _]%andb_true_iff.
Qed.

(** X6. For a shortcut that configures Cmd and not Ctrl, the control key
    does not stand in for Cmd: every key press it matches has the meta flag
    set and the control flag clear. *)
Theorem cmd_without_ctrl_needs_meta (event : KeyEvent)
    (shortcutString : string) :
  hasCmd (shortcutModifiers (shortcutParts shortcutString)) = true ->
  hasCtrl (shortcutModifiers (shortcutParts shortcutString)) = false ->
  matchesShortcut event shortcutString = true ->
  metaKey event = true /\ ctrlKey event = false.
Proof.
  intros Hcmd Hctrl Hm. apply matchesShortcut_modifiers in Hm.
  apply (modifiersMatch_cmd _ _ Hcmd) in Hm as (Hany & Hc & _ & _).
  rewrite Hctrl in Hc. split; [|exact Hc].
  destruct Hany as [Hmeta | Hc']; [exact Hmeta | congruence].
Qed.

Lemma cmd_without_ctrl_needs_meta_witness :
  hasCmd (shortcutModifiers (shortcutParts "Cmd+Enter")) = true
  /\ hasCtrl (shortcutModifiers (shortcutParts "Cmd+Enter")) = false
  /\ matchesShortcut (mkKeyEvent true false false false "Enter") "Cmd+Enter"
     = true
  /\ metaKey (mkKeyEvent true false false false "Enter") = true.
Proof.
  split; [reflexivity|]. split; [reflexivity|]. split; [reflexivity|].
  exact (proj1 (cmd_without_ctrl_needs_meta
                  (mkKeyEvent true false false false "Enter") "Cmd+Enter"
                  eq_refl eq_refl eq_refl)).
Defined.

(** X7. Two shortcuts that differ in whether they require Ctrl, Shift or Alt
    never match the same key press. *)
Theorem shortcuts_differing_in_modifier_disjoint (event : KeyEvent)
    (s1 s2 : string) :
  let m1 := shortcutModifiers (shortcutParts s1) in
  let m2 := shortcutModifiers (shortcutParts s2) in
  hasCtrl m1 <> hasCtrl m2 \/ hasShift m1 <> hasShift m2
  \/ hasAlt m1 <> hasAlt m2 ->
  matchesShortcut event s1 = true ->
  matchesShortcut event s2 = false.
Proof.
  intros m1 m2 Hdiff H1.
  destruct (matchesShortcut event s2) eqn:H2; [|reflexivity].
  apply matchesShortcut_modifiers in H1, H2. fold m1 in H1. fold m2 in H2.
  unfold modifiersMatch in H1, H2.
  apply andb_true_iff in H1 as [H1 Ha1]. apply andb_true_iff in H1 as [H1 Hs1].
  apply andb_true_iff in H1 as [_ Hc1].
  apply andb_true_iff in H2 as [H2 Ha2]. apply andb_true_iff in H2 as [H2 Hs2].
  apply andb_true_iff in H2 as [_ Hc2].
  apply Bool.eqb_prop in Ha1, Hs1, Hc1, Ha2, Hs2, Hc2.
  destruct Hdiff as [Hd | [Hd | Hd]]; exfalso; apply Hd; congruence.
Qed.

Lemma shortcuts_differing_in_modifier_disjoint_witness :
  (hasCtrl (shortcutModifiers (shortcutParts "Cmd+Enter"))
   <> hasCtrl (shortcutModifiers (shortcutParts "Cmd+Shift+Enter"))
   \/ hasShift (shortcutModifiers (shortcutParts "Cmd+Enter"))
      <> hasShift (shortcutModifiers (shortcutParts "Cmd+Shift+Enter"))
   \/ hasAlt (shortcutModifiers (shortcutParts "Cmd+Enter"))
      <> hasAlt (shortcutModifiers (shortcutParts "Cmd+Shift+Enter")))
  /\ matchesShortcut (mkKeyEvent true false false false "Enter") "Cmd+Enter"
     = true
  /\ matchesShortcut (mkKeyEvent true false false false "Enter")
       "Cmd+Shift+Enter" = false.
Proof.
  assert (Hd : hasCtrl (shortcutModifiers (shortcutParts "Cmd+Enter"))
     <> hasCtrl (shortcutModifiers (shortcutParts "Cmd+Shift+Enter"))
     \/ hasShift (shortcutModifiers (shortcutParts "Cmd+Enter"))
        <> hasShift (shortcutModifiers (shortcutParts "Cmd+Shift+Enter"))
     \/ hasAlt (shortcutModifiers (shortcutParts "Cmd+Enter"))
        <> hasAlt (shortcutModifiers (shortcutParts "Cmd+Shift+Enter"))).
  { right; left. vm_compute. discriminate. }
  split; [exact Hd|]. split; [reflexivity|].
  exact (shortcuts_differing_in_modifier_disjoint
           (mkKeyEvent true false false false "Enter")
           "Cmd+Enter" "Cmd+Shift+Enter" Hd eq_refl).
Defined.

(** The two built-in shortcuts, spelled out. *)
Lemma matchesShortcut_cmd_enter_iff (e : KeyEvent) :
  matchesShortcut e "Cmd+Enter"
  = (metaKey e && negb (ctrlKey e) && negb (shiftKey e) && negb (altKey e)
     && String.eqb (Js.toLowerCase (key e)) "enter").
Proof.
  unfold matchesShortcut.
  change (shortcutParts "Cmd+Enter") with ["Cmd"; "Enter"].
  destruct e as [m c sh a k]; simpl.
  unfold modifiersMatch; simpl. destruct m, c, sh, a; reflexivity.
Qed.

Lemma matchesShortcut_cmd_shift_enter_iff (e : KeyEvent) :
  matchesShortcut e "Cmd+Shift+Enter"
  = (metaKey e && negb (ctrlKey e) && shiftKey e && negb (altKey e)
     && String.eqb (Js.toLowerCase (key e)) "enter").
Proof.
  unfold matchesShortcut.
  change (shortcutParts "Cmd+Shift+Enter") with ["Cmd"; "Shift"; "Enter"].
  destruct e as [m c sh a k]; simpl.
  unfold modifiersMatch; simpl. destruct m, c, sh, a; reflexivity.
Qed.

(** X8. With the built-in shortcuts, for every key press and whatever else
    the state holds: Meta+comma opens the settings; otherwise Meta+Enter
    alone appends to the daily note and Meta+Shift+Enter alone saves as a
    note ("Enter" in any letter case, Ctrl and Alt up); otherwise Escape
    closes; nothing else does anything. *)
Theorem handleKeydown_default_bindings (e : KeyEvent) (s : State) :
  appSettings s = defaultAppSettings ->
  handleKeydown e s
  = Some
      (if metaKey e && String.eqb (key e) "," then KeyOpenSettings
       else if metaKey e && negb (ctrlKey e) && negb (altKey e)
               && String.eqb (Js.toLowerCase (key e)) "enter"
       then (if shiftKey e then KeySaveAsNote else KeyAppendToDaily)
       else if String.eqb (key e) "Escape" then KeyClose
       else KeyNothing).
Proof.
  intros Hs. unfold handleKeydown. rewrite Hs.
  change (Js.get defaultAppSettings "save_to_daily_shortcut")
    with (Js.VStr "Cmd+Enter").
  change (Js.get defaultAppSettings "save_as_note_shortcut")
    with (Js.VStr "Cmd+Shift+Enter").
  unfold matchesShortcutValue.
  rewrite matchesShortcut_cmd_enter_iff, matchesShortcut_cmd_shift_enter_iff.
  destruct (metaKey e && String.eqb (key e) ","); [reflexivity|].
  destruct (metaKey e), (ctrlKey e), (shiftKey e), (altKey e); simpl;
    destruct (String.eqb (Js.toLowerCase (key e)) "enter"); simpl;
    destruct (String.eqb (key e) "Escape"); reflexivity.
Qed.

Lemma handleKeydown_default_bindings_witness :
  appSettings sampleState = defaultAppSettings
  /\ handleKeydown (mkKeyEvent true false true false "Enter") sampleState
     = Some KeySaveAsNote.
Proof.
  split; [reflexivity|].
  exact (handleKeydown_default_bindings
           (mkKeyEvent true false true false "Enter") sampleState eq_refl).
Defined.

(** ** Settings *)

(** Reading a field of the merged settings. *)
Lemma lookup_mergeSettings (app new : gmap string Js.value) (k : string) :
  mergeSettings app new !! k
  = if decide (k ∈ settingsFields)
    then Some (Js.coalesce (Js.get new k) (Js.get app k))
    else app !! k.
Proof.
  unfold mergeSettings. generalize settingsFields as fields.
  induction fields as [|f fields IH]; simpl.
  - reflexivity.
  - destruct (decide (f = k)) as [->|Hne].
    + rewrite lookup_insert_eq.
      destruct (decide (k ∈ k :: fields)) as [_|Hn]; [reflexivity|].
      exfalso. apply Hn. left.
    + rewrite lookup_insert_ne by assumption. rewrite IH.
      destruct (decide (k ∈ fields)) as [Hin|Hin].
      * rewrite decide_True by (now right). reflexivity.
      * rewrite decide_False; [reflexivity|].
        intros [Heq|Hin']%elem_of_cons; [congruence | contradiction].
Qed.

Lemma get_mergeSettings (app new : gmap string Js.value) (k : string) :
  Js.get (mergeSettings app new) k
  = if decide (k ∈ settingsFields)
    then Js.coalesce (Js.get new k) (Js.get app k)
    else Js.get app k.
Proof.
  unfold Js.get at 1. rewrite lookup_mergeSettings.
  now destruct (decide (k ∈ settingsFields)).
Qed.

Lemma coalesce_coalesce (a b : Js.value) :
  Js.coalesce a (Js.coalesce a b) = Js.coalesce a b.
Proof. unfold Js.coalesce. now destruct (Js.isNullish a). Qed.

(** X9. Two snapshots merged one after the other: each merged field holds the
    value of the later snapshot if it has one, else that of the earlier, else
    the local one; the other fields stay; and a snapshot delivered twice has
    the effect of one delivery. *)
Theorem settings_snapshots_compose (app n1 n2 : gmap string Js.value)
    (k : string) :
  Js.get (mergeSettings (mergeSettings app n1) n2) k
  = (if decide (k ∈ settingsFields)
     then Js.coalesce (Js.get n2 k)
            (Js.coalesce (Js.get n1 k) (Js.get app k))
     else Js.get app k)
  /\ mergeSettings (mergeSettings app n1) n1 = mergeSettings app n1.
Proof.
  split.
  - rewrite !get_mergeSettings. now destruct (decide (k ∈ settingsFields)).
  - apply map_eq. intros j. rewrite !lookup_mergeSettings.
    destruct (decide (j ∈ settingsFields)) as [Hin|Hin]; [|reflexivity].
    rewrite get_mergeSettings, decide_True by assumption.
    now rewrite coalesce_coalesce.
Qed.

(** The fields of the loaded settings, one by one. *)
Lemma loadedSettings_insert (settings : gmap string Js.value) :
  loadedSettings settings
  = <["background_color" := Js.get settings "background_color"]>
    (<["font_family" := Js.get settings "font_family"]>
    (<["font_size" := Js.get settings "font_size"]>
    (<["border_radius" := Js.get settings "border_radius"]>
    (<["window_transparency" :=
         Js.coalesce (Js.get settings "window_transparency") (Js.VNum 55)]>
    (<["window_blur" :=
         Js.coalesce (Js.get settings "window_blur") (Js.VNum 80)]>
    (<["window_saturation" :=
         Js.coalesce (Js.get settings "window_saturation") (Js.VNum 200)]>
    (<["window_brightness" :=
         Js.coalesce (Js.get settings "window_brightness") (Js.VNum 0)]>
    (<["text_color" :=
         Js.coalesce (Js.get settings "text_color") (Js.VStr "#ffffff")]>
    (<["save_to_daily_shortcut" :=
         Js.coalesce (Js.get settings "save_to_daily_shortcut")
                     (Js.VStr "Cmd+Enter")]>
    (<["save_as_note_shortcut" :=
         Js.coalesce (Js.get settings "save_as_note_shortcut")
                     (Js.VStr "Cmd+Shift+Enter")]> ∅)))))))))).
Proof. reflexivity. Qed.

Lemma coalesce_default (v d : Js.value) :
  Js.isNullish d = false ->
  Js.isNullish (Js.coalesce v d) = false
  /\ (Js.isNullish v = false -> Js.coalesce v d = v).
Proof.
  intros Hd. unfold Js.coalesce.
  destruct (Js.isNullish v) eqn:Hv; split; auto; discriminate.
Qed.

Ltac settings_field H :=
  apply list_elem_of_In in H; simpl in H;
  repeat (destruct H as [<- | H]); [..| contradiction].

Ltac loaded_lookup :=
  unfold Js.get at 1; rewrite loadedSettings_insert;
  repeat (rewrite lookup_insert_ne by discriminate);
  rewrite lookup_insert_eq; simpl.

(** X10. The settings assigned when the initial load answers: exactly the
    eleven fields, any other key of the answer or of the previous copy being
    dropped; the seven fields with a fallback are never null or undefined;
    the four others are taken as answered, undefined included; and a field
    the answer holds a value for has that value. *)
Theorem loadedSettings_fields (settings : gmap string Js.value) (k : string) :
  (k ∉ settingsFields -> loadedSettings settings !! k = None)
  /\ (k ∈ settingsFields -> is_Some (loadedSettings settings !! k))
  /\ (k ∈ fallbackFields ->
      Js.isNullish (Js.get (loadedSettings settings) k) = false)
  /\ (k ∈ settingsFields -> k ∉ fallbackFields ->
      Js.get (loadedSettings settings) k = Js.get settings k)
  /\ (k ∈ settingsFields -> Js.isNullish (Js.get settings k) = false ->
      Js.get (loadedSettings settings) k = Js.get settings k).
Proof.
  split; [|split; [|split; [|split]]].
  - intros Hk. rewrite loadedSettings_insert.
    repeat (rewrite lookup_insert_ne
              by (intros <-; apply Hk; apply list_elem_of_In; simpl; tauto)).
    apply lookup_empty.
  - intros Hk. settings_field Hk; rewrite loadedSettings_insert;
      repeat (rewrite lookup_insert_ne by discriminate);
      rewrite lookup_insert_eq; eauto.
  - intros Hk. settings_field Hk; loaded_lookup;
      now apply coalesce_default.
  - intros Hk Hn. settings_field Hk;
      try (exfalso; apply Hn; apply list_elem_of_In; simpl; tauto);
      loaded_lookup; reflexivity.
  - intros Hk Hv. settings_field Hk; loaded_lookup;
      first [reflexivity | now apply coalesce_default].
Qed.

(** ** Insertion: the caret and the estimated position *)

Lemma ensureLineBreak_lineBreakAfter (content : string) :
  ensureLineBreak content = content +:+ lineBreakAfter content.
Proof.
  unfold ensureLineBreak, lineBreakAfter.
  destruct (Js.endsWith content Js.LF); simpl.
  - now rewrite andb_false_r, append_nil_r.
  - rewrite andb_true_r. destruct (String.length content) eqn:Hlen; simpl.
    + now rewrite append_nil_r.
    + reflexivity.
Qed.

Lemma lineStart_lineBreakAfter (before : string) :
  lineStart before -> lineBreakAfter before = "".
Proof.
  unfold lineBreakAfter. intros [-> | ->]; reflexivity.
Qed.

Lemma ensureLineBreak_lineStart (content : string) :
  lineStart content -> ensureLineBreak content = content.
Proof.
  intros H. rewrite ensureLineBreak_lineBreakAfter.
  now rewrite lineStart_lineBreakAfter, append_nil_r.
Qed.

Lemma substring1_length (content : string) :
  Js.substring1 content (String.length content) = "".
Proof.
  assert (Hc := substring_before_after content (String.length content)
                  ltac:(lia)).
  rewrite substring2_0, substring_0_all in Hc by lia.
  apply (f_equal String.length) in Hc. rewrite length_append in Hc.
  apply length_zero. lia.
Qed.

Lemma substring1_append (a b : string) :
  Js.substring1 (a +:+ b) (String.length a) = b.
Proof.
  rewrite substring1_eq by (rewrite length_append; lia).
  rewrite substring_skip. apply substring_0_all.
  rewrite length_append. lia.
Qed.

Lemma refLines_cons (img : ImageRecord) (imgs : list ImageRecord) :
  refLines (img :: imgs) = markdown img +:+ Js.LF +:+ refLines imgs.
Proof. reflexivity. Qed.

(** Text and caret after the insertion of a batch at a position inside the
    buffer or at its end. *)
Lemma insertImages_pair (content : string) (pos : nat)
    (imgs : list ImageRecord) :
  pos <= String.length content ->
  imgs <> [] ->
  let before := Js.substring2 content 0 pos in
  let after := Js.substring1 content pos in
  insertImages content pos imgs
  = ((before +:+ lineBreakAfter before +:+ refLines imgs) +:+ after,
     String.length (before +:+ lineBreakAfter before +:+ refLines imgs)).
Proof.
  intros Hpos Hne before after.
  destruct imgs as [|img rest]; [contradiction|].
  destruct (Nat.eq_dec pos (String.length content)) as [Heq|Hlt].
  - assert (Hb : before = content).
    { unfold before. rewrite substring2_0 by lia.
      apply substring_0_all. lia. }
    assert (Ha : after = "").
    { unfold after. rewrite Heq. apply substring1_length. }
    rewrite Hb, Ha, append_nil_r.
    rewrite insertImages_cons. unfold insertImage at 1 2.
    assert (Hle : (String.length content <=? pos) = true)
      by (apply Nat.leb_le; lia).
    rewrite Hle. rewrite <- (append_assoc content), <- ensureLineBreak_lineBreakAfter.
    unfold ensureLineBreak.
    destruct ((0 <? String.length content)
              && negb (Js.endsWith content Js.LF)); cbn [fst snd];
      (rewrite insertImages_append;
       [ rewrite refLines_cons, !length_append, !append_assoc;
         f_equal; rewrite ?length_append; lia
       | apply lineStart_ref
       | rewrite !length_append; lia ]).
  - rewrite insertImages_cons, insertImage_inside by lia.
    cbn [fst snd]. fold before. fold after.
    assert (Hafter : 0 < String.length after).
    { assert (Hc := substring_before_after content pos ltac:(lia)).
      fold before in Hc. fold after in Hc.
      assert (Hb : String.length before = pos).
      { unfold before. rewrite substring2_0 by lia.
        apply length_substring_0. lia. }
      apply (f_equal String.length) in Hc.
      rewrite length_append in Hc. lia. }
    rewrite insertImages_between;
      [| rewrite <- !append_assoc; right; apply endsWith_append | exact Hafter].
    rewrite refLines_cons, !length_append, !append_assoc.
    f_equal. rewrite ?length_append. lia.
Qed.

(** X11. After a batch is inserted at a position inside the buffer or at its
    end, the caret position the loop ends with is right behind the last
    inserted reference: the text from there on is what followed the insertion
    position. *)
Theorem caret_after_inserted_references (content : string) (pos : nat)
    (imgs : list ImageRecord) :
  pos <= String.length content ->
  imgs <> [] ->
  let before := Js.substring2 content 0 pos in
  let inserted := insertImages content pos imgs in
  snd inserted
  = String.length (before +:+ lineBreakAfter before +:+ refLines imgs)
  /\ Js.substring2 (fst inserted) 0 (snd inserted)
     = before +:+ lineBreakAfter before +:+ refLines imgs
  /\ Js.substring1 (fst inserted) (snd inserted) = Js.substring1 content pos
  /\ snd inserted <= String.length (fst inserted).
Proof.
  intros Hpos Hne before inserted. unfold inserted.
  rewrite (insertImages_pair content pos imgs Hpos Hne). fold before.
  set (ins := before +:+ lineBreakAfter before +:+ refLines imgs).
  cbn [fst snd]. split; [reflexivity|]. split; [|split].
  - rewrite substring2_0 by (rewrite length_append; lia).
    apply substring_0_append.
  - apply substring1_append.
  - rewrite length_append. lia.
Qed.

Lemma caret_after_inserted_references_witness :
  2 <= String.length "hello"
  /\ [recordOf "a.png" "![[a.png]]"] <> []
  /\ snd (insertImages "hello" 2 [recordOf "a.png" "![[a.png]]"]) = 14
  /\ Js.substring1 (fst (insertImages "hello" 2 [recordOf "a.png" "![[a.png]]"]))
       (snd (insertImages "hello" 2 [recordOf "a.png" "![[a.png]]"]))
     = "llo".
Proof.
  assert (H2 : 2 <= String.length "hello") by (simpl; lia).
  assert (Hne : [recordOf "a.png" "![[a.png]]"] <> []) by discriminate.
  pose proof (caret_after_inserted_references "hello" 2
                [recordOf "a.png" "![[a.png]]"] H2 Hne) as (Hs & _ & Ha & _).
  split; [exact H2|]. split; [exact Hne|]. split; [exact Hs | exact Ha].
Defined.

Lemma split_not_nil (sep : ascii) (s : string) : Js.split sep s <> [].
Proof.
  destruct s as [|c s]; simpl; [discriminate|].
  destruct (Ascii.eqb c sep); [discriminate|].
  destruct (Js.split sep s); discriminate.
Qed.

Lemma joinWith_cons (sep x : string) (l : list string) :
  l <> [] -> joinWith sep (x :: l) = x +:+ sep +:+ joinWith sep l.
Proof. destruct l; [contradiction | reflexivity]. Qed.

(** Splitting at a code unit and joining with it gives the string back. *)
Lemma join_split (sep : ascii) (s : string) :
  joinWith (String sep "") (Js.split sep s) = s.
Proof.
  induction s as [|c s IH]; [reflexivity|].
  simpl Js.split. destruct (Ascii.eqb c sep) eqn:Hc.
  - apply Ascii.eqb_eq in Hc as ->.
    rewrite joinWith_cons by apply split_not_nil. now rewrite IH.
  - pose proof (split_not_nil sep s) as Hne.
    destruct (Js.split sep s) as [|h t]; [contradiction|].
    destruct t as [|h' t].
    + simpl in *. now rewrite IH.
    + rewrite joinWith_cons by discriminate.
      rewrite joinWith_cons in IH by discriminate.
      rewrite append_cons. now rewrite IH.
Qed.

Lemma linesBefore_S (k : nat) (a : string) (lines : list string) :
  linesBefore (S k) (a :: lines) = a +:+ Js.LF +:+ linesBefore k lines.
Proof. reflexivity. Qed.

(** The lines in front of line [k], then the rest. *)
Lemma join_linesBefore (k : nat) (lines : list string) :
  k < length lines ->
  joinWith Js.LF lines = linesBefore k lines +:+ joinWith Js.LF (drop k lines).
Proof.
  revert lines; induction k as [|k IH]; intros lines Hk.
  - reflexivity.
  - destruct lines as [|a lines]; [simpl in Hk; lia|].
    simpl in Hk. assert (Hne : lines <> []) by (destruct lines; simpl in *;
                                                 [lia | discriminate]).
    rewrite joinWith_cons by assumption.
    rewrite linesBefore_S, (IH lines) by lia.
    simpl drop. now rewrite !append_assoc.
Qed.

Lemma join_linesBefore_all (lines : list string) :
  lines <> [] ->
  linesBefore (length lines) lines = joinWith Js.LF lines +:+ Js.LF.
Proof.
  induction lines as [|a lines IH]; [contradiction|]. intros _.
  simpl length. rewrite linesBefore_S.
  destruct lines as [|b lines].
  - reflexivity.
  - rewrite IH by discriminate.
    rewrite (joinWith_cons Js.LF a (b :: lines)) by discriminate.
    now rewrite !append_assoc.
Qed.

Lemma lineStart_linesBefore (k : nat) (lines : list string) :
  lineStart (linesBefore k lines).
Proof.
  revert lines; induction k as [|k IH]; intros lines; [now left|].
  destruct lines as [|a lines]; [now left|].
  rewrite linesBefore_S. right.
  destruct (IH lines) as [-> | He].
  - rewrite append_nil_r. apply endsWith_append.
  - apply endsWith_iff in He as [p ->]. rewrite <- !append_assoc.
    apply endsWith_append.
Qed.

Lemma sum_line_lengths (l : list string) (acc : nat) :
  fold_left (fun pos line => pos + (String.length line + 1)) l acc
  = acc + String.length (foldr (fun line acc => line +:+ Js.LF +:+ acc) "" l).
Proof.
  revert acc; induction l as [|a l IH]; intros acc; simpl; [lia|].
  rewrite IH, !length_append. simpl. lia.
Qed.

(** X12. When the textarea reports no caret, the position a browser drop is
    inserted at is within the buffer and is either the end of the buffer or
    the start of a line, so an inserted batch goes between two lines without
    a line feed of its own. *)
Theorem estimated_position_at_line_start (dom : Dom) (e : DropEvt)
    (content : string) (imgs : list ImageRecord) :
  (forall ta, textareaRef dom = Some ta -> selectionStart ta = None) ->
  imgs <> [] ->
  let pos := resolveInsertPosition dom e content in
  pos <= String.length content
  /\ (pos = String.length content
      \/ lineStart (Js.substring2 content 0 pos)
         /\ fst (insertImages content pos imgs)
            = Js.substring2 content 0 pos +:+ refLines imgs
              +:+ Js.substring1 content pos).
Proof.
  intros Hcaret Hne pos.
  assert (Hend : String.length content <= String.length content
                 /\ (String.length content = String.length content
                     \/ lineStart (Js.substring2 content 0
                                     (String.length content))
                        /\ fst (insertImages content (String.length content)
                                  imgs)
                           = Js.substring2 content 0 (String.length content)
                             +:+ refLines imgs
                             +:+ Js.substring1 content (String.length content)))
    by (split; [lia | now left]).
  unfold pos, resolveInsertPosition.
  destruct (textareaRef dom) as [ta|] eqn:Hta; [|exact Hend].
  destruct (_ || targetInTextarea e); [|exact Hend].
  rewrite (Hcaret ta eq_refl).
  set (lines := Js.split (ascii_of_nat 10) content).
  set (k := Nat.min _ (length lines)).
  rewrite sum_line_lengths. fold (linesBefore k lines). simpl.
  assert (Hjoin : joinWith Js.LF lines = content) by apply join_split.
  assert (Hk : k <= length lines) by (unfold k; lia).
  destruct (Nat.eq_dec k (length lines)) as [->|Hlt].
  - rewrite join_linesBefore_all by apply split_not_nil.
    rewrite Hjoin, length_append. simpl. rewrite Nat.min_r by lia.
    exact Hend.
  - assert (Hc : content = linesBefore k lines
                           +:+ joinWith Js.LF (drop k lines)).
    { rewrite <- Hjoin at 1. apply join_linesBefore. lia. }
    assert (Hle : String.length (linesBefore k lines) <= String.length content).
    { apply (f_equal String.length) in Hc as Hlen.
      rewrite length_append in Hlen. lia. }
    rewrite Nat.min_l by exact Hle. split; [exact Hle|]. right.
    assert (Hb : Js.substring2 content 0 (String.length (linesBefore k lines))
                 = linesBefore k lines).
    { rewrite substring2_0 by exact Hle. rewrite Hc at 1.
      apply substring_0_append. }
    rewrite Hb. split; [apply lineStart_linesBefore|].
    rewrite (insertImages_pair content _ imgs Hle Hne). cbn [fst].
    rewrite Hb, lineStart_lineBreakAfter by apply lineStart_linesBefore.
    now rewrite append_nil_l, !append_assoc.
Qed.

Lemma estimated_position_at_line_start_witness :
  (forall ta, textareaRef sampleDomNoCaret = Some ta -> selectionStart ta = None)
  /\ [recordOf "a.png" "![[a.png]]"] <> []
  /\ resolveInsertPosition sampleDomNoCaret
       (mkDropEvt (Some sampleTransfer) 10 30 true) ("ab" +:+ Js.LF +:+ "cd")
     <= String.length ("ab" +:+ Js.LF +:+ "cd")
  /\ resolveInsertPosition sampleDomNoCaret
       (mkDropEvt (Some sampleTransfer) 10 30 true) ("ab" +:+ Js.LF +:+ "cd")
     = 3.
Proof.
  assert (Hc : forall ta, textareaRef sampleDomNoCaret = Some ta ->
                          selectionStart ta = None)
    by (intros ta [= <-]; reflexivity).
  assert (Hne : [recordOf "a.png" "![[a.png]]"] <> []) by discriminate.
  split; [exact Hc|]. split; [exact Hne|]. split.
  - exact (proj1 (estimated_position_at_line_start sampleDomNoCaret
                    (mkDropEvt (Some sampleTransfer) 10 30 true)
                    ("ab" +:+ Js.LF +:+ "cd")
                    [recordOf "a.png" "![[a.png]]"] Hc Hne)).
  - vm_compute. reflexivity.
Defined.

(** ** Drops, one after the other *)

Lemma refLines_app (a b : list ImageRecord) :
  refLines (a ++ b) = refLines a +:+ refLines b.
Proof.
  induction a as [|img a IH]; [reflexivity|].
  simpl app. rewrite !refLines_cons, IH. now rewrite !append_assoc.
Qed.

Lemma lineStart_refLines (content : string) (imgs : list ImageRecord) :
  lineStart content -> lineStart (content +:+ refLines imgs).
Proof.
  revert content; induction imgs as [|img imgs IH]; intros content Hc.
  - simpl. now rewrite append_nil_r.
  - rewrite refLines_cons, <- !append_assoc. apply IH.
    rewrite append_assoc. apply lineStart_ref.
Qed.

(** The continuation of a host-native drop, spelled out. *)
Lemma handleTauriFileDrop_resume_eq (dom : Dom) (results : list EntryResult)
    (s : State) :
  handleTauriFileDrop_resume dom results s
  = match validImages results with
    | [] => s
    | valid =>
        set_content (ensureLineBreak (content s) +:+ refLines valid)
          (set_uploadedImages (uploadedImages s ++ valid) s)
    end.
Proof.
  unfold handleTauriFileDrop_resume.
  destruct (validImages results) as [|img valid] eqn:Hv; [reflexivity|].
  change (0 <? length (img :: valid)) with true. cbv iota.
  rewrite showStatus_success, append_refs. unfold ensureLineBreak.
  now destruct ((0 <? String.length _) && negb _).
Qed.

(** X13. Two host-native drops settling one after the other, with at least
    one image resolved between them: the text is the buffer, made to end with
    a line feed, followed by the references of the first batch and then those
    of the second, with no empty line between the batches; the gallery gains
    the records in the same order. *)
Theorem native_drops_in_sequence (dom1 dom2 : Dom)
    (results1 results2 : list EntryResult) (s : State) :
  validImages results1 ++ validImages results2 <> [] ->
  let settled :=
    handleTauriFileDrop_resume dom2 results2
      (handleTauriFileDrop_resume dom1 results1 s) in
  content settled
  = ensureLineBreak (content s)
    +:+ refLines (validImages results1 ++ validImages results2)
  /\ uploadedImages settled
     = uploadedImages s ++ validImages results1 ++ validImages results2.
Proof.
  intros Hne settled. unfold settled.
  rewrite !handleTauriFileDrop_resume_eq.
  destruct (validImages results1) as [|a v1];
    destruct (validImages results2) as [|b v2]; simpl app in *.
  - contradiction.
  - now split.
  - rewrite !app_nil_r. now split.
  - cbn [content uploadedImages set_content set_uploadedImages].
    rewrite ensureLineBreak_lineStart
      by (apply lineStart_refLines, lineStart_ensureLineBreak).
    change (a :: v1 ++ b :: v2) with ((a :: v1) ++ b :: v2).
    rewrite (refLines_app (a :: v1) (b :: v2)), append_assoc, <- app_assoc.
    now split.
Qed.

Lemma native_drops_in_sequence_witness :
  validImages (tauriResults sampleHost ["/tmp/a.png"])
  ++ validImages (tauriResults sampleHost ["/tmp/b.gif"]) <> []
  /\ content
       (handleTauriFileDrop_resume sampleDom
          (tauriResults sampleHost ["/tmp/b.gif"])
          (handleTauriFileDrop_resume sampleDom
             (tauriResults sampleHost ["/tmp/a.png"]) sampleState))
     = "X" +:+ Js.LF +:+ "![[a.png]]" +:+ Js.LF +:+ "![[b.gif]]" +:+ Js.LF.
Proof.
  assert (Hne : validImages (tauriResults sampleHost ["/tmp/a.png"])
                ++ validImages (tauriResults sampleHost ["/tmp/b.gif"]) <> [])
    by (vm_compute; discriminate).
  split; [exact Hne|].
  exact (proj1 (native_drops_in_sequence sampleDom sampleDom
                  (tauriResults sampleHost ["/tmp/a.png"])
                  (tauriResults sampleHost ["/tmp/b.gif"]) sampleState Hne)).
Defined.

(** X14. The settling of a drop, browser or host-native, changes the text and
    the gallery and nothing else: no status message is shown for it, and the
    drag state, the loading flag and the settings are as before. *)
Theorem drop_settling_changes_text_and_gallery_only (dom : Dom) (e : DropEvt)
    (results : list EntryResult) (s : State) :
  handleDrop_resume dom e results s
  = set_uploadedImages (uploadedImages (handleDrop_resume dom e results s))
      (set_content (content (handleDrop_resume dom e results s)) s)
  /\ handleTauriFileDrop_resume dom results s
     = set_uploadedImages
         (uploadedImages (handleTauriFileDrop_resume dom results s))
         (set_content (content (handleTauriFileDrop_resume dom results s)) s)
  /\ render (handleDrop_resume dom e results s)
     = mkBufferView (content (handleDrop_resume dom e results s))
         (uploadedImages s ++ validImages results)
         (isDragging s) (isLoading s) (viewToast (render s)).
Proof.
  split; [|split].
  - unfold handleDrop_resume.
    destruct (0 <? length (validImages results)); [|now destruct s].
    now rewrite showStatus_success.
  - rewrite handleTauriFileDrop_resume_eq.
    destruct (validImages results); [now destruct s | reflexivity].
  - unfold handleDrop_resume.
    destruct (validImages results) as [|img valid]; simpl.
    + now rewrite app_nil_r.
    + reflexivity.
Qed.

(** ** The drop overlay *)

Section Overlay.

Variable h : Host.

Lemma overlayShown_same (s s' : State) :
  dragState s' = dragState s -> overlayShown s -> overlayShown s'.
Proof.
  unfold dragState, overlayShown. intros [= -> ->]. auto.
Qed.

Lemma overlayShown_reset (s' : State) :
  dragState s' = (0%Z, false) -> overlayShown s'.
Proof.
  unfold dragState, overlayShown. intros [= -> ->]. split; lia.
Qed.

Lemma step_overlayShown (s : State) (ev : Event) :
  overlayShown s -> overlayShown (step h s ev).
Proof.
  intros Hs.
  destruct ev as [dt|e|dt|e|dt|dt|b|b e|payload|dom e|dom ps|msg| | |p|p];
    simpl step.
  - unfold handleDragEnter. destruct (isFileDrag dt); [|exact Hs].
    destruct Hs as [H0 Hpos]. simpl.
    destruct (dragCounter s + 1 =? 1)%Z eqn:H1; unfold overlayShown; simpl.
    + split; [lia | reflexivity].
    + apply Z.eqb_neq in H1. split; [lia|]. intros _. apply Hpos. lia.
  - unfold handleDragLeave. destruct (_ || _); [|exact Hs].
    destruct Hs as [H0 Hpos]. simpl.
    destruct (dragCounter s - 1 <=? 0)%Z eqn:H1; unfold overlayShown; simpl.
    + split; lia.
    + apply Z.leb_gt in H1. split; [lia|]. intros _. apply Hpos. lia.
  - unfold handleDragOver. destruct (isFileDrag dt); [|exact Hs].
    destruct (negb (isDragging s)); [|exact Hs].
    destruct Hs as [H0 _]. split; [exact H0 | reflexivity].
  - apply overlayShown_reset, handleDrop_start_dragState.
  - unfold globalDragEnter. destruct (negb (isFileDrag dt)); [exact Hs|].
    destruct Hs as [H0 _]. unfold overlayShown; simpl. split; [lia|reflexivity].
  - exact Hs.
  - unfold globalDragLeave. destruct b; [|exact Hs].
    now apply overlayShown_reset.
  - unfold globalDrop_start. destruct b; [|exact Hs].
    apply overlayShown_reset, handleDrop_start_dragState.
  - unfold handleDragDropEvent. destruct payload as [payload|]; [|exact Hs].
    destruct (_ || _).
    { destruct Hs as [H0 _]. split; [exact H0 | reflexivity]. }
    destruct (String.eqb (ptype payload) "leave");
      [now apply overlayShown_reset|].
    destruct (String.eqb (ptype payload) "drop"); [|exact Hs].
    destruct (paths payload); [|now apply overlayShown_reset].
    apply overlayShown_reset, handleTauriFileDrop_start_dragState.
  - eapply overlayShown_same; [apply handleDrop_resume_dragState | exact Hs].
  - eapply overlayShown_same;
      [apply handleTauriFileDrop_resume_dragState | exact Hs].
  - eapply overlayShown_same; [apply showStatus_dragState | exact Hs].
  - exact Hs.
  - now apply overlayShown_reset.
  - unfold insert_capture_text. now destruct (String.eqb _ _).
  - unfold settings_changed. now destruct p.
Qed.

Lemma handle_overlayShown (s : State) (input : Input) :
  overlayShown s -> overlayShown (handle h s input).
Proof.
  intros Hs. destruct input as [ev|i|e|r|r|r]; simpl.
  - now apply step_overlayShown.
  - exact Hs.
  - destruct (handleKeydown e s) as [[| | | |]|]; try exact Hs.
    + unfold handleAppendToDaily_start.
      destruct (_ || _); simpl; [|exact Hs].
      destruct (String.eqb _ _); [|exact Hs].
      eapply overlayShown_same; [apply showStatus_dragState | exact Hs].
    + unfold handleSaveAsNote_start. destruct (_ || _); exact Hs.
    + now apply overlayShown_reset.
  - destruct r; simpl; [now apply overlayShown_reset|].
    eapply overlayShown_same; [|exact Hs].
    unfold dragState. simpl.
    exact (showStatus_dragState (failurePrefix +:+ err) "error" s).
  - destruct r; simpl; [now apply overlayShown_reset|].
    eapply overlayShown_same; [|exact Hs].
    unfold dragState. simpl.
    exact (showStatus_dragState (failurePrefix +:+ err) "error" s).
  - destruct r; exact Hs.
Qed.

Lemma handleAll_overlayShown (inputs : list Input) (s : State) :
  overlayShown s -> overlayShown (handleAll h s inputs).
Proof.
  revert s; induction inputs as [|input inputs IH]; intros s Hs; [exact Hs|].
  apply IH. now apply handle_overlayShown.
Qed.

Lemma showStatus_bufferPart (message type : string) (s : State) :
  bufferPart (showStatus message type s) = bufferPart s.
Proof.
  unfold showStatus. now destruct (negb (String.eqb type "error")).
Qed.

Lemma showEntryStatus_bufferPart (l : list (File * EntryResult)) (s : State) :
  bufferPart (fold_left showEntryStatus l s) = bufferPart s.
Proof.
  revert s; induction l as [|fr l IH]; intros s; [reflexivity|].
  simpl. rewrite IH. unfold showEntryStatus.
  destruct (snd fr); try reflexivity; apply showStatus_bufferPart.
Qed.

Lemma handleDrop_start_bufferPart (e : DropEvt) (s : State) :
  bufferPart (handleDrop_start h e s) = bufferPart s.
Proof.
  unfold handleDrop_start. destruct (dataTransfer e).
  - destruct (length (dropFiles e) =? 0).
    + now rewrite showStatus_bufferPart.
    + now rewrite showEntryStatus_bufferPart.
  - now rewrite showStatus_bufferPart.
Qed.

Lemma handleTauriFileDrop_start_bufferPart (ps : list string) (s : State) :
  bufferPart (handleTauriFileDrop_start ps s) = bufferPart s.
Proof.
  unfold handleTauriFileDrop_start.
  destruct (length ps =? 0); [now rewrite showStatus_bufferPart|].
  destruct (length (tauriImagePaths ps) =? 0);
    [now rewrite showStatus_bufferPart | reflexivity].
Qed.

End Overlay.

(** X15. Whatever the window handles (drag events of both sources, drops and
    their settling, key presses, saves, removals, resets, settings), once the
    nesting counter is not negative and the drop overlay is shown whenever
    the counter is positive, both stay so after every handler. *)
Theorem overlay_shown_while_counter_positive (h : Host) (s : State)
    (inputs : list Input) (n : nat) :
  overlayShown s ->
  overlayShown (handleAll h s (take n inputs)).
Proof. apply handleAll_overlayShown. Qed.

Lemma overlay_shown_while_counter_positive_witness :
  overlayShown initialState
  /\ overlayShown
       (handleAll sampleHost initialState
          (take 3 [InEvent (EvDragEnter (Some sampleTransfer));
                   InEvent (EvDragEnter (Some sampleTransfer));
                   InEvent (EvDragLeave sampleLeave);
                   InKeydown (mkKeyEvent false false false false "Escape")])).
Proof.
  assert (H0 : overlayShown initialState)
    by (split; simpl; [lia | intros H; lia]).
  split; [exact H0|].
  exact (overlay_shown_while_counter_positive sampleHost initialState _ 3 H0).
Defined.

(** X16. A drag never touches the buffer: no drag event of either source and
    no dispatch of a drop changes the text, the gallery, the loading flag or
    the settings; a drop changes the text only when its promises settle. *)
Theorem drag_leaves_buffer_alone (h : Host) (s : State) (input : Input) :
  isDragInput input = true ->
  content (handle h s input) = content s
  /\ uploadedImages (handle h s input) = uploadedImages s
  /\ isLoading (handle h s input) = isLoading s
  /\ appSettings (handle h s input) = appSettings s.
Proof.
  intros Hdrag.
  assert (H : bufferPart (handle h s input) = bufferPart s).
  { destruct input as [ev|i|e|r|r|r]; try discriminate.
    destruct ev as [dt|e|dt|e|dt|dt|b|b e|payload|dom e|dom ps|msg| | |p|p];
      try discriminate; simpl.
    - unfold handleDragEnter. destruct (isFileDrag dt); [|reflexivity].
      simpl. now destruct (dragCounter s + 1 =? 1)%Z.
    - unfold handleDragLeave. destruct (_ || _); [|reflexivity].
      simpl. now destruct (dragCounter s - 1 <=? 0)%Z.
    - unfold handleDragOver. destruct (isFileDrag dt); [|reflexivity].
      now destruct (negb (isDragging s)).
    - apply handleDrop_start_bufferPart.
    - unfold globalDragEnter. now destruct (negb (isFileDrag dt)).
    - reflexivity.
    - unfold globalDragLeave. now destruct b.
    - unfold globalDrop_start. destruct b; [|reflexivity].
      apply handleDrop_start_bufferPart.
    - unfold handleDragDropEvent. destruct payload as [payload|]; [|reflexivity].
      destruct (_ || _); [reflexivity|].
      destruct (String.eqb (ptype payload) "leave"); [reflexivity|].
      destruct (String.eqb (ptype payload) "drop"); [|reflexivity].
      destruct (paths payload); [|reflexivity].
      now rewrite handleTauriFileDrop_start_bufferPart. }
  unfold bufferPart in H. now inversion H.
Qed.

Lemma drag_leaves_buffer_alone_witness :
  isDragInput (InEvent (EvDrop sampleDrop)) = true
  /\ content (handle sampleHost sampleState (InEvent (EvDrop sampleDrop)))
     = "X".
Proof.
  split; [reflexivity|].
  exact (proj1 (drag_leaves_buffer_alone sampleHost sampleState
                  (InEvent (EvDrop sampleDrop)) eq_refl)).
Defined.

(** ** Recording a shortcut and matching it *)

Lemma split_noSep (sep : ascii) (s : string) :
  noSep sep s = true -> Js.split sep s = [s].
Proof.
  induction s as [|c s IH]; [reflexivity|].
  simpl. intros [Hc Hs]%andb_true_iff. apply negb_true_iff in Hc.
  now rewrite Hc, IH.
Qed.

Lemma split_append_sep (sep : ascii) (a b : string) :
  noSep sep a = true ->
  Js.split sep (a +:+ String sep b) = a :: Js.split sep b.
Proof.
  induction a as [|c a IH].
  - intros _. rewrite append_nil_l. simpl. now rewrite Ascii.eqb_refl.
  - simpl noSep. intros [Hc Ha]%andb_true_iff. apply negb_true_iff in Hc.
    rewrite append_cons. simpl Js.split. now rewrite Hc, IH.
Qed.

(** Joining with a code unit none of the strings holds, then splitting at
    it, gives the strings back. *)
Lemma split_joinWith (sep : ascii) (l : list string) :
  l <> [] ->
  (forall x, x ∈ l -> noSep sep x = true) ->
  Js.split sep (joinWith (String sep "") l) = l.
Proof.
  induction l as [|x l IH]; [contradiction|]. intros _ Hall.
  destruct l as [|y l].
  - apply split_noSep, Hall. left.
  - rewrite joinWith_cons by discriminate.
    change (String sep "" +:+ joinWith (String sep "") (y :: l))
      with (String sep (joinWith (String sep "") (y :: l))).
    rewrite split_append_sep by (apply Hall; left).
    rewrite IH; [reflexivity | discriminate |].
    intros z Hz. apply Hall. now right.
Qed.

Lemma recordedModifiers_plain (e : KeyEvent) (x : string) :
  x ∈ recordedModifiers e -> noSep "+"%char x = true.
Proof.
  unfold recordedModifiers.
  destruct (metaKey e), (ctrlKey e), (shiftKey e), (altKey e); simpl;
    intros Hx; repeat (apply elem_of_cons in Hx as [->|Hx]; [reflexivity|]);
    inversion Hx.
Qed.

Lemma not_modifier_name (k : string) :
  Js.includes modifierNames k = false ->
  String.eqb "Cmd" k = false /\ String.eqb "Command" k = false
  /\ String.eqb "Ctrl" k = false /\ String.eqb "Control" k = false
  /\ String.eqb "Shift" k = false /\ String.eqb "Alt" k = false
  /\ String.eqb "Option" k = false /\ String.eqb "Opt" k = false.
Proof.
  unfold Js.includes, modifierNames. simpl.
  rewrite !orb_false_iff, !(String.eqb_sym k). tauto.
Qed.

Lemma includes_snoc_other (l : list string) (k x : string) :
  String.eqb x k = false -> Js.includes (l ++ [k]) x = Js.includes l x.
Proof.
  intros H. unfold Js.includes. rewrite existsb_app. simpl.
  now rewrite H, !orb_false_r.
Qed.

Lemma find_snoc_key (l : list string) (k : string) :
  (forall x, x ∈ l -> Js.includes modifierNames x = true) ->
  Js.includes modifierNames k = false ->
  shortcutKey (l ++ [k]) = Some k.
Proof.
  intros Hl Hk. unfold shortcutKey.
  induction l as [|x l IH]; cbn [List.find app].
  - now rewrite Hk.
  - rewrite (Hl x) by (left). cbn [negb]. apply IH.
    intros y Hy. apply Hl. now right.
Qed.

Lemma recordedModifiers_names (e : KeyEvent) (x : string) :
  x ∈ recordedModifiers e -> Js.includes modifierNames x = true.
Proof.
  unfold recordedModifiers.
  destruct (metaKey e), (ctrlKey e), (shiftKey e), (altKey e); simpl;
    intros Hx; repeat (apply elem_of_cons in Hx as [->|Hx]; [reflexivity|]);
    inversion Hx.
Qed.

(** X17. A shortcut recorded in the settings window and the matcher of the
    capture window: when the recorded key name is a plain one, a key press
    with the same four modifier flags matches the recorded shortcut exactly
    when its [key] is that name, letter case apart. *)
Theorem recorded_shortcut_round_trip (ev : ShortcutKeyEvent)
    (k shortcut : string) (e : KeyEvent) :
  recordShortcut ev = Some shortcut ->
  recordedKey (code ev) = Some k ->
  plainKey k = true ->
  metaKey e = metaKey (pressed ev) ->
  ctrlKey e = ctrlKey (pressed ev) ->
  shiftKey e = shiftKey (pressed ev) ->
  altKey e = altKey (pressed ev) ->
  shortcut = joinWith "+" (recordedModifiers (pressed ev) ++ [k])
  /\ matchesShortcut e shortcut
     = String.eqb (Js.toLowerCase (key e)) (Js.toLowerCase k).
Proof.
  intros Hrec Hk Hplain Hm Hc Hs Ha.
  unfold recordShortcut in Hrec. rewrite Hk in Hrec.
  destruct (Js.includes _ (key (pressed ev))); [discriminate|].
  destruct (length (recordedModifiers (pressed ev)) =? 0) eqn:Hlen;
    [discriminate|].
  injection Hrec as <-. split; [reflexivity|].
  unfold plainKey in Hplain.
  apply andb_true_iff in Hplain as [Hplain Hnotmod].
  apply andb_true_iff in Hplain as [Hplain Hne].
  apply andb_true_iff in Hplain as [Hsep Htrim].
  apply negb_true_iff in Hnotmod, Hne. apply String.eqb_eq in Htrim.
  pose proof (not_modifier_name k Hnotmod)
    as (N1 & N2 & N3 & N4 & N5 & N6 & N7 & N8).
  assert (Hparts : shortcutParts
                     (joinWith "+" (recordedModifiers (pressed ev) ++ [k]))
                   = recordedModifiers (pressed ev) ++ [k]).
  { unfold shortcutParts.
    rewrite (split_joinWith "+"%char).
    - rewrite map_app. simpl. rewrite Htrim. f_equal.
      unfold recordedModifiers.
      destruct (metaKey (pressed ev)), (ctrlKey (pressed ev)),
        (shiftKey (pressed ev)), (altKey (pressed ev)); reflexivity.
    - now destruct (recordedModifiers (pressed ev)).
    - intros x [Hx | Hx%list_elem_of_singleton]%elem_of_app.
      + now apply recordedModifiers_plain in Hx.
      + now subst. }
  assert (Hnonempty : String.eqb
                        (joinWith "+" (recordedModifiers (pressed ev) ++ [k]))
                        "" = false).
  { revert Hlen. unfold recordedModifiers.
    destruct (metaKey (pressed ev)), (ctrlKey (pressed ev)),
      (shiftKey (pressed ev)), (altKey (pressed ev)); simpl;
      try discriminate; reflexivity. }
  unfold matchesShortcut. rewrite Hnonempty, Hparts.
  rewrite (find_snoc_key _ k (recordedModifiers_names (pressed ev)) Hnotmod).
  rewrite Hne. unfold shortcutModifiers, modifiersMatch.
  rewrite !includes_snoc_other by assumption. simpl hasCmd. simpl hasCtrl.
  simpl hasShift. simpl hasAlt. rewrite Hm, Hc, Hs, Ha.
  unfold recordedModifiers.
  destruct (metaKey (pressed ev)), (ctrlKey (pressed ev)),
    (shiftKey (pressed ev)), (altKey (pressed ev)); reflexivity.
Qed.

Lemma recorded_shortcut_round_trip_witness :
  recordShortcut
    (mkShortcutKeyEvent (mkKeyEvent true false true false "N") "KeyN")
  = Some "Cmd+Shift+N"
  /\ recordedKey "KeyN" = Some "N"
  /\ plainKey "N" = true
  /\ matchesShortcut (mkKeyEvent true false true false "n") "Cmd+Shift+N"
     = true.
Proof.
  split; [reflexivity|]. split; [reflexivity|]. split; [reflexivity|].
  exact (proj2 (recorded_shortcut_round_trip
                  (mkShortcutKeyEvent (mkKeyEvent true false true false "N")
                                      "KeyN")
                  "N" "Cmd+Shift+N"
                  (mkKeyEvent true false true false "n")
                  eq_refl eq_refl eq_refl eq_refl eq_refl eq_refl eq_refl)).
Defined.

(** ** A browser drop at the end of the buffer *)

(** X18. A browser drop whose insertion position is the end of the buffer (a
    drop outside the textarea, a window without textarea, a caret at the end)
    settles exactly as a host-native drop of the same results does. *)
Theorem browser_drop_at_end_like_native_drop (dom : Dom) (e : DropEvt)
    (results : list EntryResult) (s : State) :
  resolveInsertPosition dom e (content s) = String.length (content s) ->
  handleDrop_resume dom e results s
  = handleTauriFileDrop_resume dom results s.
Proof.
  intros Hpos. rewrite handleTauriFileDrop_resume_eq.
  unfold handleDrop_resume.
  destruct (validImages results) as [|img valid] eqn:Hv; [reflexivity|].
  change (0 <? length (img :: valid)) with true. cbv iota.
  rewrite showStatus_success, Hpos.
  rewrite insertImages_end_text by (discriminate || lia).
  reflexivity.
Qed.

Lemma browser_drop_at_end_like_native_drop_witness :
  resolveInsertPosition (mkDom None) sampleDrop (content sampleState)
  = String.length (content sampleState)
  /\ content (handleDrop_resume (mkDom None) sampleDrop
                (dropResults sampleHost sampleDrop) sampleState)
     = content (handleTauriFileDrop_resume (mkDom None)
                  (dropResults sampleHost sampleDrop) sampleState).
Proof.
  split; [reflexivity|].
  exact (f_equal content
           (browser_drop_at_end_like_native_drop (mkDom None) sampleDrop
              (dropResults sampleHost sampleDrop) sampleState eq_refl)).
Defined.

(** ** A save in flight *)

(** A drag leaves the loading flag alone. *)
Lemma drag_input_isLoading (h : Host) (s : State) (input : Input) :
  isDragInput input = true ->
  isLoading (handle h s input) = isLoading s.
Proof.
  intros Hdrag.
  assert (H : bufferPart (handle h s input) = bufferPart s).
  { destruct input as [ev|i|e|r|r|r]; try discriminate.
    destruct ev as [dt|e|dt|e|dt|dt|b|b e|payload|dom e|dom ps|msg| | |p|p];
      try discriminate; simpl.
    - unfold handleDragEnter. destruct (isFileDrag dt); [|reflexivity].
      simpl. now destruct (dragCounter s + 1 =? 1)%Z.
    - unfold handleDragLeave. destruct (_ || _); [|reflexivity].
      simpl. now destruct (dragCounter s - 1 <=? 0)%Z.
    - unfold handleDragOver. destruct (isFileDrag dt); [|reflexivity].
      now destruct (negb (isDragging s)).
    - apply handleDrop_start_bufferPart.
    - unfold globalDragEnter. now destruct (negb (isFileDrag dt)).
    - reflexivity.
    - unfold globalDragLeave. now destruct b.
    - unfold globalDrop_start. destruct b; [|reflexivity].
      apply handleDrop_start_bufferPart.
    - unfold handleDragDropEvent.
      destruct payload as [payload|]; [|reflexivity].
      destruct (_ || _); [reflexivity|].
      destruct (String.eqb (ptype payload) "leave"); [reflexivity|].
      destruct (String.eqb (ptype payload) "drop"); [|reflexivity].
      destruct (paths payload); [|reflexivity].
      now rewrite handleTauriFileDrop_start_bufferPart. }
  unfold bufferPart in H. now inversion H.
Qed.

Lemma showStatus_isLoading (message type : string) (s : State) :
  isLoading (showStatus message type s) = isLoading s.
Proof.
  unfold showStatus. now destruct (negb (String.eqb type "error")).
Qed.

(** With a save in flight, a save handler does nothing but, for a blank
    buffer, show a status. *)
Lemma save_start_while_loading (s : State) :
  isLoading s = true ->
  snd (handleAppendToDaily_start s) = None
  /\ isLoading (fst (handleAppendToDaily_start s)) = true
  /\ handleSaveAsNote_start s = (s, None).
Proof.
  intros Hl. unfold handleAppendToDaily_start, handleSaveAsNote_start.
  rewrite Hl, orb_true_r. split; [reflexivity|]. split; [|reflexivity].
  simpl. destruct (String.eqb _ _); [|exact Hl].
  now rewrite showStatus_isLoading.
Qed.

Lemma handleKeydown_close (e : KeyEvent) (s : State) :
  handleKeydown e s = Some KeyClose -> String.eqb (key e) "Escape" = true.
Proof.
  unfold handleKeydown.
  destruct (metaKey e && String.eqb (key e) ","); [discriminate|].
  destruct (matchesShortcutValue e _) as [[|]|]; try discriminate.
  destruct (matchesShortcutValue e _) as [[|]|]; try discriminate.
  now destruct (String.eqb (key e) "Escape").
Qed.

(** No input but those of [clearsLoading] changes the loading flag of a
    window that is saving. *)
Lemma handle_keeps_loading (h : Host) (s : State) (input : Input) :
  clearsLoading input = false ->
  isLoading s = true ->
  isLoading (handle h s input) = true.
Proof.
  intros Hclear Hl.
  destruct input as [ev|i|e|r|r|r]; simpl in *; try discriminate.
  - destruct ev as [dt|e|dt|e|dt|dt|b|b e|payload|dom e|dom ps|msg| | |p|p];
      try discriminate.
    + exact (eq_trans (drag_input_isLoading h s (InEvent (EvDragEnter dt))
                         eq_refl) Hl).
    + exact (eq_trans (drag_input_isLoading h s (InEvent (EvDragLeave e))
                         eq_refl) Hl).
    + exact (eq_trans (drag_input_isLoading h s (InEvent (EvDragOver dt))
                         eq_refl) Hl).
    + exact (eq_trans (drag_input_isLoading h s (InEvent (EvDrop e))
                         eq_refl) Hl).
    + exact (eq_trans (drag_input_isLoading h s
                         (InEvent (EvGlobalDragEnter dt)) eq_refl) Hl).
    + exact Hl.
    + exact (eq_trans (drag_input_isLoading h s
                         (InEvent (EvGlobalDragLeave b)) eq_refl) Hl).
    + exact (eq_trans (drag_input_isLoading h s
                         (InEvent (EvGlobalDrop b e)) eq_refl) Hl).
    + exact (eq_trans (drag_input_isLoading h s (InEvent (EvNative payload))
                         eq_refl) Hl).
    + simpl. unfold handleDrop_resume.
      destruct (0 <? length _); [|exact Hl].
      now rewrite showStatus_isLoading.
    + simpl. rewrite handleTauriFileDrop_resume_eq.
      now destruct (validImages _).
    + exact (eq_trans (showStatus_isLoading ("Error: " +:+ msg) "error" s)
                      Hl).
    + exact Hl.
    + simpl. unfold insert_capture_text. now destruct (String.eqb _ _).
    + simpl. unfold settings_changed. now destruct p.
  - exact Hl.
  - destruct (handleKeydown e s) as [[| | | |]|] eqn:Hk; try exact Hl.
    + now apply save_start_while_loading.
    + now rewrite (proj2 (proj2 (save_start_while_loading s Hl))).
    + apply handleKeydown_close in Hk. congruence.
  - now destruct r.
Qed.

(** X3. A save command is invoked only for a buffer that is not blank and
    with [isLoading] clear; the text sent is the trimmed buffer and
    [isLoading] is set.  From then on, through every sequence of inputs that
    holds neither the settling of a save, nor [show_capture], nor a press of
    Escape, [isLoading] stays set and neither save handler invokes its
    command again.  [show_capture] clears [isLoading] even while the save is
    pending. *)
Theorem save_blocks_saves_while_loading (h : Host) (s : State)
    (text : string) (inputs : list Input) :
  snd (handleAppendToDaily_start s) = Some text
  \/ snd (handleSaveAsNote_start s) = Some text ->
  (forall input, input ∈ inputs -> clearsLoading input = false) ->
  let later := handleAll h (set_isLoading true s) inputs in
  text = Js.trim (content s)
  /\ allWhiteSpace (content s) = false
  /\ isLoading s = false
  /\ fst (handleAppendToDaily_start s) = set_isLoading true s
  /\ fst (handleSaveAsNote_start s) = set_isLoading true s
  /\ isLoading later = true
  /\ snd (handleAppendToDaily_start later) = None
  /\ handleSaveAsNote_start later = (later, None)
  /\ isLoading (handle h later (InEvent EvShowCapture)) = false.
Proof.
  intros Hstart Hinputs later.
  assert (Hlater : isLoading later = true).
  { unfold later, handleAll.
    assert (Hl : isLoading (set_isLoading true s) = true) by reflexivity.
    revert Hl Hinputs. generalize (set_isLoading true s) as s0.
    induction inputs as [|input inputs IH]; intros s0 Hl Hinputs;
      [exact Hl|].
    simpl. apply IH.
    - apply handle_keeps_loading; [|exact Hl]. apply Hinputs. left.
    - intros input' Hin. apply Hinputs. now right. }
  destruct (save_start_while_loading later Hlater) as (Ha & _ & Hn).
  revert Hstart. unfold handleAppendToDaily_start, handleSaveAsNote_start.
  rewrite trim_empty_iff.
  destruct (allWhiteSpace (content s)), (isLoading s); simpl;
    intros [H|H]; try discriminate; inversion H; repeat split;
    assumption.
Qed.

Lemma save_blocks_saves_while_loading_witness :
  (snd (handleAppendToDaily_start sampleState) = Some "X"
   \/ snd (handleSaveAsNote_start sampleState) = Some "X")
  /\ (forall input,
        input ∈ [InKeydown (mkKeyEvent true false false false "Enter");
                 InEvent (EvInsertCaptureText (Js.VStr "Y"));
                 InEvent (EvDrop sampleDrop)] ->
        clearsLoading input = false)
  /\ handleSaveAsNote_start
       (handleAll sampleHost (set_isLoading true sampleState)
          [InKeydown (mkKeyEvent true false false false "Enter");
           InEvent (EvInsertCaptureText (Js.VStr "Y"));
           InEvent (EvDrop sampleDrop)])
     = (handleAll sampleHost (set_isLoading true sampleState)
          [InKeydown (mkKeyEvent true false false false "Enter");
           InEvent (EvInsertCaptureText (Js.VStr "Y"));
           InEvent (EvDrop sampleDrop)], None).
Proof.
  assert (H : snd (handleAppendToDaily_start sampleState) = Some "X"
              \/ snd (handleSaveAsNote_start sampleState) = Some "X")
    by (left; reflexivity).
  assert (Hin : forall input,
            input ∈ [InKeydown (mkKeyEvent true false false false "Enter");
                     InEvent (EvInsertCaptureText (Js.VStr "Y"));
                     InEvent (EvDrop sampleDrop)] ->
            clearsLoading input = false).
  { intros input Hi.
    repeat (apply elem_of_cons in Hi as [->|Hi]; [reflexivity|]).
    inversion Hi. }
  split; [exact H|]. split; [exact Hin|].
  exact (proj1 (proj2 (proj2 (proj2 (proj2 (proj2 (proj2 (proj2
           (save_blocks_saves_while_loading sampleHost sampleState "X" _
              H Hin))))))))).
Defined.
